(** * ncompare.core: a shallow embedding and its verified properties

    The module under study is [src/ncompare/core.py].  Python's effects are
    threaded through an explicit [world]: the entropy consumed by
    [random.randint], the two colorama namespaces [Fore] and [Style], and the
    trace of everything the program prints or asks of its collaborators.
    Exceptions are the [Raise] outcome of a state-and-error monad. *)

From Stdlib Require Import ZArith Ascii String Floats.SpecFloat.
From stdpp Require Import gmap strings list fin_maps sorting pretty.

Open Scope string_scope.
Open Scope list_scope.
Open Scope Z_scope.

(** ** Scalars: IEEE-754 binary64, as numpy's float64 *)

Module F64.

Definition prec : Z := 53.
Definition emax : Z := 1024.

Definition float64 : Type := spec_float.

Definition isnan (x : float64) : bool :=
  match x with
  | S754_nan => true
  | _ => false
  end.

Definition sub (x y : float64) : float64 := SFsub prec emax x y.
Definition abs (x : float64) : float64 := SFabs x.
(** [gt x y] is Python's [x > y]: false whenever an operand is NaN. *)
Definition gt (x y : float64) : bool := SFltb y x.

(** The literal [1e-6]: the binary64 nearest to 10^-6,
    4722366482869645 * 2^-72. *)
Definition lit_1e_6 : float64 := S754_finite false 4722366482869645 (-72).

Definition of_Z (z : Z) : float64 := binary_normalize prec emax z 0 false.

End F64.

Abbreviation float64 := F64.float64.

(** ** Exceptions and printed text *)

Inductive exn :=
| KeyError (key : string)
| OSError (msg : string)
| ValueError (msg : string)
| IndexError (msg : string)
| AttributeError (name : string)
| SubArraySelected (count : nat).

(** A printed value is kept as the sequence of pieces the source
    concatenates or formats; numbers are kept as numbers. *)
Inductive frag :=
| Str (s : string)
| Num (z : Z)
| Flt (x : float64)
| Tuple (zs : list Z)
| NumList (zs : list Z)
| StrList (l : list string)
| Pair (s : string) (z : Z)
| Row (xs : list float64)
| Traceback (e : exn).

Definition text : Type := list frag.

(** Which argument of [_match_random_value] an element was read from. *)
Inductive operand := VarA | VarB.

(** What the program does is recorded as a trace of events: what it prints,
    what it asks of its collaborators, and what it reads of the arrays.
    [LoadValues] and [LoadVariable] record an evaluation of [.values], which
    makes xarray hand over the whole array, [size] elements ([open_dataset]
    keeps a loaded array in its cache, so that a later evaluation finds it in
    memory); [ReadElems] and [ReadRow] record what the subscript applied to
    that array selects. *)

Inductive event :=
| Print (t : text) (end_ : string)
| PrintNormal (t : text) (end_ : string)
| SideBySide (label lhs rhs : text) (dash_line highlight_diff : option bool)
| ListsDiff (a b : list frag)
| CommonElements (a b : list string)
| ColoramaInit (autoreset : bool)
| LoadValues (v : operand) (size : nat)
| ReadElems (v : operand) (index : list Z) (count : nat)
| LoadVariable (path group name : string) (size : nat)
| ReadRow (path group name : string) (count : nat).

(** ** The world and the monad *)

Record world := World {
  w_entropy : nat -> Z;
  w_cursor : nat;
  w_Fore : gmap string string;
  w_Style : gmap string string;
  w_out : list event
}.

Inductive result (A : Type) :=
| Ok (a : A)
| Raise (e : exn).
Arguments Ok {A} a.
Arguments Raise {A} e.

Definition M (A : Type) : Type := world -> result A * world.

Definition ret {A} (a : A) : M A := fun w => (Ok a, w).

Definition raise {A} (e : exn) : M A := fun w => (Raise e, w).

Definition bind {A B} (m : M A) (k : A -> M B) : M B :=
  fun w =>
    match m w with
    | (Ok a, w') => k a w'
    | (Raise e, w') => (Raise e, w')
    end.

Notation "'let*' x ':=' m 'in' k" := (bind m (fun x => k))
  (at level 10, x pattern, m at level 100, k at level 200).
Notation "m ';;;' k" := (bind m (fun _ => k))
  (at level 100, k at level 200, right associativity).

(** [try: m except h]: [h] decides which exceptions it handles. *)
Definition try_except {A} (m : M A) (h : exn -> option (M A)) : M A :=
  fun w =>
    match m w with
    | (Ok a, w') => (Ok a, w')
    | (Raise e, w') =>
        match h e with
        | Some k => k w'
        | None => (Raise e, w')
        end
    end.

Definition lift {A} (r : result A) : M A := fun w => (r, w).

Definition emit (e : event) : M unit :=
  fun w => (Ok tt, World (w_entropy w) (w_cursor w) (w_Fore w) (w_Style w)
                         (w_out w ++ [e])).

(** [for x in xs: s = body x s] *)
Fixpoint for_loop {A S} (xs : list A) (body : A -> S -> M S) (s : S) : M S :=
  match xs with
  | [] => ret s
  | x :: xs' => let* s' := body x s in for_loop xs' body s'
  end.

(** ** Library primitives the module calls *)

(** [random.randint(a, b)]: an integer of [a..b]; an empty range raises. *)
Definition randint (a b : Z) : M Z :=
  fun w =>
    if b - a + 1 <=? 0 then
      (Raise (ValueError "empty range for randrange()"), w)
    else
      (Ok (a + w_entropy w (w_cursor w) mod (b - a + 1)),
       World (w_entropy w) (S (w_cursor w)) (w_Fore w) (w_Style w) (w_out w)).

Definition nl : string := String "010"%char EmptyString.

Definition print (t : text) : M unit := emit (Print t nl).
(** [ncompare.printing.print_normal]: recorded as a call, with its argument. *)
Definition print_normal (t : text) : M unit := emit (PrintNormal t nl).
Definition print_normal_end (t : text) (end_ : string) : M unit :=
  emit (PrintNormal t end_).

(** Attribute access [Fore.NAME] and [Style.NAME]. *)
Definition Fore (name : string) : M string :=
  fun w =>
    match w_Fore w !! name with
    | Some s => (Ok s, w)
    | None => (Raise (AttributeError name), w)
    end.

Definition Style (name : string) : M string :=
  fun w =>
    match w_Style w !! name with
    | Some s => (Ok s, w)
    | None => (Raise (AttributeError name), w)
    end.

(** ** Arrays, variables and datasets *)

(** What [DataArray.shape] and [DataArray.values] give: the extents and the
    element stored at each full index (dtype float64). *)
Record DataArray := {
  da_shape : list Z;
  da_values : list Z -> float64
}.

(** numpy's bounds check of an integer index tuple: a component [i] of a
    dimension of extent [d] must satisfy [-d <= i < d]; negative ones count
    from the end. *)
Fixpoint normalize_index (idx shape : list Z) : result (list Z) :=
  match idx, shape with
  | [], _ => Ok []
  | _ :: _, [] => Raise (IndexError "too many indices for array")
  | i :: idx', d :: shape' =>
      if (0 <=? i) && (i <? d) then
        match normalize_index idx' shape' with
        | Ok r => Ok (i :: r)
        | Raise e => Raise e
        end
      else if (- d <=? i) && (i <? 0) then
        match normalize_index idx' shape' with
        | Ok r => Ok (i + d :: r)
        | Raise e => Raise e
        end
      else Raise (IndexError "index out of bounds")
  end.

(** Number of scalar elements of an array of the given extents. *)
Definition size_of (shape : list Z) : nat :=
  Z.to_nat (foldr Z.mul 1 shape).

(** [a.values[idx]] for a tuple of integers.  [a.values] is evaluated first:
    the whole array is loaded, whatever the subscript and before its bounds
    are checked.  With one integer per dimension the subscript gives the
    scalar stored there.  With fewer, numpy selects a whole sub-array; the
    embedding records how many elements that touches and stops with
    [SubArraySelected], since nothing below is about arrays of values. *)
Definition values_getitem (v : operand) (a : DataArray) (idx : list Z)
  : M float64 :=
  emit (LoadValues v (size_of (da_shape a))) ;;;
  match normalize_index idx (da_shape a) with
  | Raise e => raise e
  | Ok idx' =>
      let rest := drop (length idx) (da_shape a) in
      emit (ReadElems v idx' (size_of rest)) ;;;
      match rest with
      | [] => ret (da_values a idx')
      | _ :: _ => raise (SubArraySelected (size_of rest))
      end
  end.

(** ** The random value sampler *)

Definition thresh_default : float64 := F64.lit_1e_6.

(** The random indexer built at the head of [_match_random_value]. *)
Definition random_index (shape : list Z) : M (list Z) :=
  for_loop shape
    (fun d rand_index =>
       let* i := randint 0 (d - 1) in ret (rand_index ++ [i]))
    [].

Definition _match_random_value (nc_var_a nc_var_b : DataArray)
    (thresh : float64) : M (option bool) :=
  (* Get a random indexer *)
  let* rand_index := random_index (da_shape nc_var_a) in
  (* Get the values from each variable *)
  let* v1 := values_getitem VarA nc_var_a rand_index in
  let* v2 := values_getitem VarB nc_var_b rand_index in
  (* Evaluate the values *)
  if F64.isnan v1 || F64.isnan v2 then ret None
  else
    let diff := F64.sub v2 v1 in
    if F64.gt (F64.abs diff) thresh then
      print [] ;;;
      let* red := Fore "RED" in
      print [Str red; Str "Difference exceeded threshold (diff == "; Flt diff] ;;;
      print_normal [Str "var shape: "; Tuple (da_shape nc_var_a)] ;;;
      print_normal [Str "indices:   "; Tuple rand_index] ;;;
      print_normal [Str "value a: "; Flt v1] ;;;
      print_normal_end [Str "value b: "; Flt v2] (nl +:+ nl) ;;;
      ret (Some false)
    else ret (Some true).

(** A netCDF variable: what the module reads of it.  [v_getattr name] is
    what xarray makes of the virtual variable ["var.name"]: the data of the
    attribute [name] of the variable, or the exception that asking for it
    raises. *)
Record NcVariable := {
  v_dtype : string;
  v_chunking : option (list Z);        (* [None]: 'contiguous' *)
  v_scale_factor : option float64;     (* the attribute, when present *)
  v_data : DataArray;
  v_getattr : string -> result DataArray
}.

(** A dataset: the root group's dimensions and variables and its child
    groups, each an ordered dictionary kept in insertion order.  Child groups
    hold variables only; groups nested deeper are not represented.
    [ds_group_dims g] are the dimensions xarray reports for the child group
    [g], as [ds_dims] are those it reports for the root. *)
Record Dataset := {
  ds_dims : list (string * Z);
  ds_variables : list (string * NcVariable);
  ds_groups : list (string * list (string * NcVariable));
  ds_group_dims : string -> list (string * Z)
}.

(** [d[key]] on an ordered dictionary. *)
Fixpoint getitem {V} (d : list (string * V)) (key : string) : result V :=
  match d with
  | [] => Raise (KeyError key)
  | (k, v) :: d' => if String.eqb k key then Ok v else getitem d' key
  end.

Definition keys {V} (d : list (string * V)) : list string := map fst d.

(** Python's truth value of an optional string argument. *)
Definition truthy (s : option string) : bool :=
  match s with
  | None => false
  | Some s => negb (String.eqb s "")
  end.

Definition str_of (s : option string) : string := default "None" s.

(** [sorted] on names: a stable merge sort by code point order. *)
Definition sorted (l : list string) : list string := merge_sort String.le l.

(** [str.strip()]: drops leading and trailing ASCII whitespace. *)
Definition is_space (c : ascii) : bool :=
  let n := nat_of_ascii c in
  ((9 <=? n) && (n <=? 13) || (28 <=? n) && (n <=? 32))%nat.

Fixpoint lstrip (s : string) : string :=
  match s with
  | EmptyString => EmptyString
  | String c s' => if is_space c then lstrip s' else s
  end.

Definition strip (s : string) : string :=
  String.rev (lstrip (String.rev (lstrip s))).

(** The format [{n:02}] of a non-negative integer. *)
Definition pad2 (n : nat) : string :=
  if (n <? 10)%nat then "0" +:+ pretty n else pretty n.

(** What [xr.open_dataset] exposes of the group it opened. *)
Record XrDataset := {
  xr_dims : list (string * Z);
  xr_variables : list (string * NcVariable)
}.

(** [s.strip("/")] and [s.split("/")], with which xarray's netCDF4 backend
    reads the name of a group as a path. *)
Fixpoint lstrip_slash (s : string) : string :=
  match s with
  | EmptyString => EmptyString
  | String c s' => if Ascii.eqb c "/" then lstrip_slash s' else s
  end.

Definition strip_slash (s : string) : string :=
  String.rev (lstrip_slash (String.rev (lstrip_slash s))).

Fixpoint split_slash (s : string) : list string :=
  match s with
  | EmptyString => [EmptyString]
  | String c s' =>
      if Ascii.eqb c "/" then EmptyString :: split_slash s'
      else match split_slash s' with
           | part :: parts => String c part :: parts
           | [] => [String c EmptyString]
           end
  end.

Definition group_path (group : string) : list string :=
  split_slash (strip_slash group).

(** The root group, and a child group, as xarray exposes them. *)
Definition root_view (ds : Dataset) : XrDataset :=
  {| xr_dims := ds_dims ds; xr_variables := ds_variables ds |}.

Definition group_view (ds : Dataset) (key : string)
    (vars : list (string * NcVariable)) : XrDataset :=
  {| xr_dims := ds_group_dims ds key; xr_variables := vars |}.

(** [_nc4_require_group] of the backend, reading: the root for [""] and
    ["/"], otherwise the groups named by the components of the path, one
    inside the other; a component that names no group raises [OSError].  The
    child groups of the embedding hold no groups, so that a second component
    never names one. *)
Definition nc4_require_group (ds : Dataset) (group : string)
  : result XrDataset :=
  if String.eqb group "" || String.eqb group "/" then Ok (root_view ds)
  else
    match group_path group with
    | [] => Ok (root_view ds)
    | key :: path =>
        match getitem (ds_groups ds) key with
        | Raise _ => Raise (OSError ("group not found: " +:+ key))
        | Ok vars =>
            match path with
            | [] => Ok (group_view ds key vars)
            | key' :: _ => Raise (OSError ("group not found: " +:+ key'))
            end
        end
    end.

(** [key.split(".", 1)], when the key holds a dot. *)
Fixpoint split_dot (key : string) : option (string * string) :=
  match key with
  | EmptyString => None
  | String c key' =>
      if Ascii.eqb c "." then Some (EmptyString, key')
      else match split_dot key' with
           | Some (ref_name, var_name) => Some (String c ref_name, var_name)
           | None => None
           end
  end.

(** The index xarray makes up for a dimension of extent [n] that has no
    variable of its name: the integers [0 .. n-1] along one dimension, here
    as the float64 of the same value. *)
Definition index_variable (n : Z) : DataArray :=
  {| da_shape := [n];
     da_values := fun ix => match ix with
                            | [i] => F64.of_Z i
                            | _ => S754_nan
                            end |}.

(** xarray's [_get_virtual_variable], for a key that names no variable: the
    index of the dimension of that name; or, for a key [ref.name], what the
    attribute [name] of the variable [ref] gives; otherwise [KeyError]. *)
Definition get_virtual_variable (ds : XrDataset) (key : string)
  : result DataArray :=
  match getitem (xr_dims ds) key with
  | Ok n => Ok (index_variable n)
  | Raise _ =>
      match split_dot key with
      | None => Raise (KeyError key)
      | Some (ref_name, var_name) =>
          match getitem (xr_variables ds) ref_name with
          | Ok ref_var => v_getattr ref_var var_name
          | Raise _ => Raise (KeyError key)
          end
      end
  end.

Section Core.

(** The files on disk, read only: [fs path] is the dataset stored there. *)
Variable fs : string -> option Dataset.

(** [ncompare.sequence_operations.common_elements] and
    [ncompare.utils.make_valid_path] live outside this module. *)
Variable common_elements :
  list string -> list string -> list (nat * string * string).
Variable make_valid_path : string -> result string.

Definition Dataset_open (path : string) : M Dataset :=
  match fs path with
  | Some ds => ret ds
  | None => raise (OSError ("No such file or directory: " +:+ path))
  end.

(** [xr.open_dataset(path, backend_kwargs={"group": group})]: the netCDF4
    backend resolves the group as a path and raises [OSError] when it finds
    none. *)
Definition xr_open_dataset (path : string) (group : option string)
  : M XrDataset :=
  let* ds := Dataset_open path in
  match group with
  | None => ret (root_view ds)
  | Some g => lift (nc4_require_group ds g)
  end.

(** [ds[varname]] on an xarray dataset: the array of the variable of that
    name, or else of the virtual variable xarray makes of the name. *)
Definition xr_getitem (ds : XrDataset) (varname : string) : M DataArray :=
  match getitem (xr_variables ds) varname with
  | Ok v => ret (v_data v)
  | Raise _ => lift (get_virtual_variable ds varname)
  end.

(** The loop of [compare_multiple_random_values], over the two opened
    variables; it yields [num_mismatches]. *)
Definition random_values_loop (nc_var_a nc_var_b : DataArray)
    (num_comparisons : nat) : M Z :=
  for_loop (seq 0 num_comparisons)
    (fun i num_mismatches =>
       let* match_result :=
         _match_random_value nc_var_a nc_var_b thresh_default in
       match match_result with
       | Some true =>
           print_normal_end [Str "."] "" ;;; ret num_mismatches
       | None =>
           print_normal_end [Str "n"] "" ;;; ret num_mismatches
       | Some false =>
           print_normal_end [Str "x"] "" ;;; ret (num_mismatches + 1)
       end)
    0.

Definition compare_multiple_random_values (nc_a nc_b : string)
    (groupname varname : string) (num_comparisons : nat) : M unit :=
  (* Open a variable from each NetCDF *)
  let* ds_a := xr_open_dataset nc_a (Some groupname) in
  let* nc_var_a := xr_getitem ds_a varname in
  let* ds_b := xr_open_dataset nc_b (Some groupname) in
  let* nc_var_b := xr_getitem ds_b varname in
  let* num_mismatches :=
    random_values_loop nc_var_a nc_var_b num_comparisons in
  (if 0 <? num_mismatches then
     let* red := Fore "RED" in
     print [Str red; Str " "; Num num_mismatches;
            Str " mismatches, out of "; Num (Z.of_nat num_comparisons);
            Str " samples."]
   else
     let* cyan := Fore "CYAN" in
     print [Str cyan; Str " No mismatches."]) ;;;
  print_normal [Str "Done."].

(** *** Listing helpers *)

Definition lists_diff (a b : list frag) : M unit := emit (ListsDiff a b).

Definition side_by_side (label lhs rhs : text)
    (dash_line highlight_diff : option bool) : M unit :=
  emit (SideBySide label lhs rhs dash_line highlight_diff).

Definition call_common_elements (a b : list string)
  : M (list (nat * string * string)) :=
  emit (CommonElements a b) ;;; ret (common_elements a b).

Definition _get_dims (nc_filepath : string) (print_list : bool)
  : M (list (string * Z)) :=
  let* ds := xr_open_dataset nc_filepath None in
  let dims_list := xr_dims ds in
  (if print_list then
     print_normal
       (map (fun kv => Pair kv.1 kv.2)
          (merge_sort (fun x y => String.le x.1 y.1) dims_list))
   else ret tt) ;;;
  ret dims_list.

Definition _get_groups (nc_filepath : string) (print_list : bool)
  : M (list string) :=
  let* ds := Dataset_open nc_filepath in
  let groups_list := keys (ds_groups ds) in
  (if print_list then print_normal [StrList (sorted groups_list)]
   else ret tt) ;;;
  ret groups_list.

Definition _print_vars (nc_filepath groupname : string) : M (list string) :=
  let* grp :=
    try_except (xr_open_dataset nc_filepath (Some groupname))
      (fun err =>
         match err with
         | OSError _ =>
             Some (print_normal
                     [Str (nl +:+ "Error occurred when attempting to open group within <"
                           +:+ nc_filepath +:+ ">." +:+ nl)] ;;;
                   raise err)
         | _ => None
         end) in
  let grp_varlist := sorted (keys (xr_variables grp)) in
  print_normal [StrList grp_varlist] ;;;
  ret grp_varlist.

(** All full indices of an array of the given extents, in row-major order. *)
Fixpoint all_indices (shape : list Z) : list (list Z) :=
  match shape with
  | [] => [[]]
  | d :: shape' =>
      flat_map (fun i => map (cons i) (all_indices shape')) (seqZ 0 d)
  end.

(** [a.values[0, :]]: needs two dimensions at least and a first extent of
    one at least; it selects every element whose first index is 0. *)
Definition values_first_row (a : DataArray) : result (list float64) :=
  match da_shape a with
  | d0 :: d1 :: rest =>
      if 0 <? d0 then
        Ok (map (fun ix => da_values a (0 :: ix)) (all_indices (d1 :: rest)))
      else Raise (IndexError "index 0 is out of bounds for axis 0")
  | _ => Raise (IndexError "too many indices for array")
  end.

Definition _print_sample_values (nc_filepath groupname varname : string)
  : M unit :=
  let* ds := xr_open_dataset nc_filepath (Some groupname) in
  let* comparison_variable := xr_getitem ds varname in
  emit (LoadVariable nc_filepath groupname varname
          (size_of (da_shape comparison_variable))) ;;;
  match values_first_row comparison_variable with
  | Ok row =>
      emit (ReadRow nc_filepath groupname varname (length row)) ;;;
      print_normal [Row row]
  | Raise e => raise e
  end.

(** *** Variable properties, side by side *)

Definition str_chunking (c : option (list Z)) : text :=
  match c with
  | None => [Str "contiguous"]
  | Some zs => [NumList zs]
  end.

Definition _var_properties (ds : Dataset) (varname : string)
    (groupname : option string)
  : M (option NcVariable * text * text * text) :=
  if negb (String.eqb varname "") then
    let* the_variable :=
      (if truthy groupname then
         let* g := lift (getitem (ds_groups ds) (str_of groupname)) in
         lift (getitem g varname)
       else lift (getitem (ds_variables ds) varname)) in
    let v_dtype := [Str (v_dtype the_variable)] in
    let v_shape := [Tuple (da_shape (v_data the_variable))] in
    let v_chunking := str_chunking (v_chunking the_variable) in
    ret (Some the_variable, v_dtype, v_shape, v_chunking)
  else
    ret (None, [Str ""], [Str ""], [Str ""]).

(** Python's truth value of a float: anything but a zero. *)
Definition float_truthy (x : float64) : bool :=
  match x with
  | S754_zero _ => false
  | _ => true
  end.

(** [str(sf)] after the [getattr(variable, 'scale_factor', None)] test. *)
Definition scale_factor_text (v : option NcVariable) : text :=
  match v with
  | Some var =>
      match v_scale_factor var with
      | Some sf => if float_truthy sf then [Flt sf] else [Str " "]
      | None => [Str " "]
      end
  | None => [Str " "]
  end.

Definition _print_var_properties_side_by_side (v_a v_b : string)
    (nc_a nc_b : Dataset) (g_a g_b : option string) (show_chunks : bool)
  : M unit :=
  (* Variable name *)
  side_by_side [Str "var:"] [Str (String.substring 0 47 v_a)]
    [Str (String.substring 0 47 v_b)] None (Some false) ;;;
  (* Get the properties of each variable *)
  let* (variable_a, v_a_dtype, v_a_shape, v_a_chunking) :=
    _var_properties nc_a v_a g_a in
  let* (variable_b, v_b_dtype, v_b_shape, v_b_chunking) :=
    _var_properties nc_b v_b g_b in
  (* Data type *)
  side_by_side [Str "dtype:"] v_a_dtype v_b_dtype None (Some false) ;;;
  (* Shape *)
  side_by_side [Str "shape:"] v_a_shape v_b_shape None (Some false) ;;;
  (* Chunking *)
  (if show_chunks then
     side_by_side [Str "chunksize:"] v_a_chunking v_b_chunking None
       (Some false)
   else ret tt) ;;;
  (* Scale Factor *)
  let sf_a := scale_factor_text variable_a in
  let sf_b := scale_factor_text variable_b in
  side_by_side [Str "sf:"] sf_a sf_b None (Some true).

(** *** The comparison stages *)

Definition compare_two_nc_files (nc_one nc_two : string)
    (show_chunks : bool) : M unit :=
  side_by_side [Str " "] [Str "File A"] [Str "File B"] None None ;;;
  let* nc_a := Dataset_open nc_one in
  let* nc_b := Dataset_open nc_two in
  side_by_side [Str "-"] [Str "-"] [Str "-"] (Some true) None ;;;
  side_by_side [Str "num variables in root group:"]
    [Num (Z.of_nat (length (ds_variables nc_a)))]
    [Num (Z.of_nat (length (ds_variables nc_b)))] None None ;;;
  let* rows :=
    call_common_elements (keys (ds_variables nc_a))
      (keys (ds_variables nc_b)) in
  for_loop rows
    (fun '(v_idx, v_a, v_b) _ =>
       _print_var_properties_side_by_side v_a v_b nc_a nc_b None None
         show_chunks)
    tt ;;;
  let* grows :=
    call_common_elements (keys (ds_groups nc_a)) (keys (ds_groups nc_b)) in
  for_loop grows
    (fun '(g_idx, g_a, g_b) _ =>
       side_by_side [Str ("group #" +:+ pad2 g_idx)] [Str (strip g_a)]
         [Str (strip g_b)] (Some true) (Some false) ;;;
       let* vars_a_sorted :=
         (if negb (String.eqb g_a "") then
            let* g := lift (getitem (ds_groups nc_a) g_a) in
            ret (sorted (keys g))
          else ret []) in
       let* vars_b_sorted :=
         (if negb (String.eqb g_b "") then
            let* g := lift (getitem (ds_groups nc_b) g_b) in
            ret (sorted (keys g))
          else ret []) in
       side_by_side [Str "num variables in groups:"]
         [Num (Z.of_nat (length vars_a_sorted))]
         [Num (Z.of_nat (length vars_b_sorted))] None None ;;;
       let* vrows := call_common_elements vars_a_sorted vars_b_sorted in
       for_loop vrows
         (fun '(v_idx, v_a, v_b) _ =>
            _print_var_properties_side_by_side v_a v_b nc_a nc_b
              (Some g_a) (Some g_b) show_chunks)
         tt)
    tt.

(** The body of the [try] of [run_through_comparisons]. *)
Definition sample_values_stage (nc_a nc_b : string)
    (comparison_var_group comparison_var_name : string) : M unit :=
  (* Print the first part of the values array for the selected variable. *)
  let* blue := Fore "LIGHTBLUE_EX" in
  print [Str blue;
         Str (nl +:+ "Sample values within specified variable <"
              +:+ comparison_var_name +:+ ">:")] ;;;
  _print_sample_values nc_a comparison_var_group comparison_var_name ;;;
  _print_sample_values nc_b comparison_var_group comparison_var_name ;;;
  let* blue := Fore "LIGHTBLUE_EX" in
  print [Str blue;
         Str (nl +:+ "Checking multiple random values within specified variable <"
              +:+ comparison_var_name +:+ ">:")] ;;;
  compare_multiple_random_values nc_a nc_b comparison_var_group
    comparison_var_name 100.

(** Its [except KeyError] handler. *)
Definition key_error_handler (comparison_var_group comparison_var_name : string)
    (e : exn) : option (M unit) :=
  match e with
  | KeyError _ =>
      Some (let* bright := Style "BRIGHT" in
            let* red := Fore "RED" in
            print [Str bright; Str red;
                   Str (nl +:+ "Error when comparing values for variable <"
                        +:+ comparison_var_name +:+ "> in group <"
                        +:+ comparison_var_group +:+ ">.")] ;;;
            print [Traceback e] ;;;
            print [Str nl])
  | _ => None
  end.

Definition all_variables_stage (nc_a nc_b : string) (show_chunks : bool)
  : M unit :=
  let* blue := Fore "LIGHTBLUE_EX" in
  print [Str blue; Str (nl +:+ "All variables:")] ;;;
  compare_two_nc_files nc_a nc_b show_chunks.

(** The two root-level listings that open [run_through_comparisons]. *)
Definition root_stages (nc_a nc_b : string) : M unit :=
  (* Show the dimensions of each file and evaluate differences. *)
  let* blue := Fore "LIGHTBLUE_EX" in
  print [Str blue; Str (nl +:+ "Root-level Dimensions:")] ;;;
  let* list_a := _get_dims nc_a false in
  let* list_b := _get_dims nc_b false in
  lists_diff (map (fun kv => Pair kv.1 kv.2) list_a)
    (map (fun kv => Pair kv.1 kv.2) list_b) ;;;
  (* Show the groups in each NetCDF file and evaluate differences. *)
  let* blue := Fore "LIGHTBLUE_EX" in
  print [Str blue; Str (nl +:+ "Groups:")] ;;;
  let* list_a := _get_groups nc_a false in
  let* list_b := _get_groups nc_b false in
  lists_diff (map Str list_a) (map Str list_b).

(** The listing of the variables of the selected group. *)
Definition group_listing_stage (nc_a nc_b : string)
    (comparison_var_group : string) : M unit :=
  (* Show the variables within the selected group. *)
  let* blue := Fore "LIGHTBLUE_EX" in
  print [Str blue;
         Str (nl +:+ "Variables within specified group <"
              +:+ comparison_var_group +:+ ">:")] ;;;
  let* vlist_a := _print_vars nc_a comparison_var_group in
  let* vlist_b := _print_vars nc_b comparison_var_group in
  lists_diff (map Str vlist_a) (map Str vlist_b).

Definition run_through_comparisons (nc_a nc_b : string)
    (comparison_var_group comparison_var_name : option string)
    (show_chunks : bool) : M unit :=
  root_stages nc_a nc_b ;;;
  (if truthy comparison_var_group then
     let group := str_of comparison_var_group in
     group_listing_stage nc_a nc_b group ;;;
     if truthy comparison_var_name then
       let name := str_of comparison_var_name in
       try_except (sample_values_stage nc_a nc_b group name)
         (key_error_handler group name)
     else
       let* grey := Fore "LIGHTBLACK_EX" in
       print [Str grey;
              Str (nl +:+ "No variable selected for comparison. Skipping..")]
   else
     let* grey := Fore "LIGHTBLACK_EX" in
     print [Str grey;
            Str (nl +:+ "No variable group selected for comparison. Skipping..")]) ;;;
  all_variables_stage nc_a nc_b show_chunks.

(** *** The entry point *)

Definition Fore_items : M (list (string * string)) :=
  fun w => (Ok (map_to_list (w_Fore w)), w).

Definition Fore_setitem (k v : string) : M unit :=
  fun w => (Ok tt, World (w_entropy w) (w_cursor w) (<[k:=v]> (w_Fore w))
                     (w_Style w) (w_out w)).

Definition Style_items : M (list (string * string)) :=
  fun w => (Ok (map_to_list (w_Style w)), w).

Definition Style_setitem (k v : string) : M unit :=
  fun w => (Ok tt, World (w_entropy w) (w_cursor w) (w_Fore w)
                     (<[k:=v]> (w_Style w)) (w_out w)).

Definition colorama_init (autoreset : bool) : M unit :=
  emit (ColoramaInit autoreset).

Definition compare (nc_a nc_b : string)
    (comparison_var_group comparison_var_name : option string)
    (no_color show_chunks : bool) : M unit :=
  let* nc_a := lift (make_valid_path nc_a) in
  let* nc_b := lift (make_valid_path nc_b) in
  print [Str "File A: "; Str nc_a] ;;;
  print [Str "File B: "; Str nc_b] ;;;
  (if no_color then
     let* items := Fore_items in
     for_loop items (fun '(k, v) _ => Fore_setitem k "") tt ;;;
     let* items := Style_items in
     for_loop items (fun '(k, v) _ => Style_setitem k "") tt
   else colorama_init true) ;;;
  run_through_comparisons nc_a nc_b comparison_var_group
    comparison_var_name show_chunks ;;;
  print_normal [Str (nl +:+ "Done.")].

End Core.

(** ** The aligner, for concrete runs *)

(** Modelled from the spec: [common_elements] of
    [ncompare.sequence_operations], which is not part of this module.  The
    left sequence is the reference order and a pointer walks the right one.
    A left name that occurs in the right sequence is searched from the pointer
    onwards, the entries skipped over become right-only rows, then comes the
    matched row; a left name absent from the right sequence is a left-only
    row; what is left of the right sequence at the end is right-only. *)
Module Aligner.

(** Splits [l] at the first occurrence of [x]: what is skipped, what
    follows.  Without an occurrence everything is skipped. *)
Fixpoint search (x : string) (l : list string) : list string * list string :=
  match l with
  | [] => ([], [])
  | y :: l' =>
      if String.eqb x y then ([], l')
      else let '(skipped, rest) := search x l' in (y :: skipped, rest)
  end.

Fixpoint align (seq_a seq_b rest_b : list string)
  : list (string * string) :=
  match seq_a with
  | [] => map (fun y => ("", y)) rest_b
  | x :: seq_a' =>
      if bool_decide (x ∈ seq_b) then
        let '(skipped, rest) := search x rest_b in
        map (fun y => ("", y)) skipped ++ (x, x) :: align seq_a' seq_b rest
      else (x, "") :: align seq_a' seq_b rest_b
  end.

(** Modelled from the spec: the rows of the alignment, each with its
    position index. *)
Definition common_elements (seq_a seq_b : list string)
  : list (nat * string * string) :=
  imap (fun i '(l, r) => (i, l, r)) (align seq_a seq_b seq_b).

End Aligner.

(** ** Fixtures: colorama's tables, files and entropy *)

Module Fixtures.

Definition esc (code : string) : string :=
  String "027"%char ("[" +:+ code +:+ "m").

Definition Fore0 : gmap string string :=
  list_to_map
    [("BLACK", esc "30"); ("RED", esc "31"); ("GREEN", esc "32");
     ("YELLOW", esc "33"); ("BLUE", esc "34"); ("MAGENTA", esc "35");
     ("CYAN", esc "36"); ("WHITE", esc "37"); ("RESET", esc "39");
     ("LIGHTBLACK_EX", esc "90"); ("LIGHTRED_EX", esc "91");
     ("LIGHTGREEN_EX", esc "92"); ("LIGHTYELLOW_EX", esc "93");
     ("LIGHTBLUE_EX", esc "94"); ("LIGHTMAGENTA_EX", esc "95");
     ("LIGHTCYAN_EX", esc "96"); ("LIGHTWHITE_EX", esc "97")].

Definition Style0 : gmap string string :=
  list_to_map
    [("BRIGHT", esc "1"); ("DIM", esc "2"); ("NORMAL", esc "22");
     ("RESET_ALL", esc "0")].

Definition entropy0 (n : nat) : Z := Z.of_nat (n * n + n `div` 3).

Definition w0 : world := World entropy0 0 Fore0 Style0 [].

(** A 2x3 array holding [10*i + j] at [(i, j)]. *)
Definition grid : DataArray :=
  {| da_shape := [2; 3];
     da_values := fun ix => F64.of_Z (foldl (fun acc i => 10 * acc + i) 0 ix) |}.

(** The same extents with every element one larger. *)
Definition grid_plus_one : DataArray :=
  {| da_shape := [2; 3];
     da_values :=
       fun ix => F64.of_Z (1 + foldl (fun acc i => 10 * acc + i) 0 ix) |}.

(** The same extents, nothing but NaN. *)
Definition grid_nan : DataArray :=
  {| da_shape := [2; 3]; da_values := fun _ => S754_nan |}.

(** Three rows of no columns. *)
Definition grid_empty : DataArray :=
  {| da_shape := [3; 0]; da_values := fun _ => S754_zero false |}.

Definition var_of (a : DataArray) : NcVariable :=
  {| v_dtype := "float64"; v_chunking := None; v_scale_factor := None;
     v_data := a; v_getattr := fun name => Raise (AttributeError name) |}.

Definition file_a : Dataset :=
  {| ds_dims := [("lat", 2); ("lon", 3)];
     ds_variables := [("b", var_of grid); ("a", var_of grid)];
     ds_groups := [("g", [("temp", var_of grid); ("hum", var_of grid)])];
     ds_group_dims := fun _ => [("lat", 2); ("lon", 3)] |}.

Definition file_b : Dataset :=
  {| ds_dims := [("lat", 2); ("lon", 3); ("time", 24)];
     ds_variables := [("a", var_of grid); ("b", var_of grid)];
     ds_groups := [("g", [("temp", var_of grid_plus_one)])];
     ds_group_dims := fun _ => [("lat", 2); ("lon", 3)] |}.

Definition fs0 (path : string) : option Dataset :=
  if String.eqb path "a.nc" then Some file_a
  else if String.eqb path "b.nc" then Some file_b
  else None.

Definition valid_path0 (path : string) : result string :=
  match fs0 path with
  | Some _ => Ok path
  | None => Raise (OSError ("No such file or directory: " +:+ path))
  end.

End Fixtures.

(** ** Worlds reached from a world *)

(** [n] more values of entropy consumed. *)
Definition advance (w : world) (n : nat) : world :=
  World (w_entropy w) (w_cursor w + n) (w_Fore w) (w_Style w) (w_out w).

(** The events [tr] appended to the trace. *)
Definition logged (w : world) (tr : list event) : world :=
  World (w_entropy w) (w_cursor w) (w_Fore w) (w_Style w) (w_out w ++ tr).

(** Every component of [idx] lies in [0, extent). *)
Definition in_bounds (idx shape : list Z) : Prop :=
  Forall2 (fun i d => 0 <= i < d) idx shape.

(** The last block of [_match_random_value] ("Evaluate the values"), under
    a name of its own for the proofs. *)
Definition evaluate_values (nc_var_a : DataArray) (rand_index : list Z)
    (v1 v2 thresh : float64) : M (option bool) :=
  if F64.isnan v1 || F64.isnan v2 then ret None
  else
    let diff := F64.sub v2 v1 in
    if F64.gt (F64.abs diff) thresh then
      print [] ;;;
      let* red := Fore "RED" in
      print [Str red; Str "Difference exceeded threshold (diff == "; Flt diff] ;;;
      print_normal [Str "var shape: "; Tuple (da_shape nc_var_a)] ;;;
      print_normal [Str "indices:   "; Tuple rand_index] ;;;
      print_normal [Str "value a: "; Flt v1] ;;;
      print_normal_end [Str "value b: "; Flt v2] (nl +:+ nl) ;;;
      ret (Some false)
    else ret (Some true).

(** The body of the loop of [compare_multiple_random_values], under a name
    of its own for the proofs. *)
Definition draw_and_mark (nc_var_a nc_var_b : DataArray) (i : nat)
    (num_mismatches : Z) : M Z :=
  let* match_result :=
    _match_random_value nc_var_a nc_var_b thresh_default in
  match match_result with
  | Some true =>
      print_normal_end [Str "."] "" ;;; ret num_mismatches
  | None =>
      print_normal_end [Str "n"] "" ;;; ret num_mismatches
  | Some false =>
      print_normal_end [Str "x"] "" ;;; ret (num_mismatches + 1)
  end.

(** What [evaluate_values] may print: nothing that reads an element and no
    progress marker. *)
Definition detail_event (e : event) : bool :=
  match e with
  | Print _ _ => true
  | PrintNormal (_ :: _ :: _) _ => true
  | _ => false
  end.

(** ** Kinds of events *)

(** [s.startswith(p)] *)
Fixpoint starts_with (p s : string) : bool :=
  match p, s with
  | EmptyString, _ => true
  | String a p', String b s' => Ascii.eqb a b && starts_with p' s'
  | String _ _, EmptyString => false
  end.

Definition any_event (e : event) : bool := true.

(** What the root listings and the all-variables stage emit: their three
    titles, and the calls to [lists_diff], [side_by_side] and
    [common_elements]. *)
Definition report_event (e : event) : bool :=
  match e with
  | Print [Str _; Str s] _ =>
      existsb (String.eqb s)
        [nl +:+ "Root-level Dimensions:"; nl +:+ "Groups:";
         nl +:+ "All variables:"]
  | ListsDiff _ _ | SideBySide _ _ _ _ _ | CommonElements _ _ => true
  | _ => false
  end.

(** The message printed when no group was selected. *)
Definition no_group_event (e : event) : bool :=
  match e with
  | Print [Str _; Str s] _ =>
      String.eqb s (nl +:+ "No variable group selected for comparison. Skipping..")
  | _ => false
  end.

(** What the listing of the group [g] emits: its title, the sorted names
    printed by [_print_vars] or its complaint about a group that does not
    open, the call to [lists_diff], and the message printed when no variable
    was selected. *)
Definition group_listing_event (g : string) (e : event) : bool :=
  match e with
  | Print [Str _; Str s] _ =>
      String.eqb s (nl +:+ "Variables within specified group <" +:+ g +:+ ">:")
      || String.eqb s (nl +:+ "No variable selected for comparison. Skipping..")
  | PrintNormal [StrList _] _ => true
  | ListsDiff _ _ => true
  | PrintNormal [Str s] _ =>
      starts_with (nl +:+ "Error occurred when attempting to open group within <") s
  | _ => false
  end.

(** The events that mark the listing of a selected group: its title and
    what [_print_vars] prints. *)
Definition group_stage_event (e : event) : bool :=
  match e with
  | Print [Str _; Str s] _ =>
      starts_with (nl +:+ "Variables within specified group <") s
  | PrintNormal [StrList _] _ => true
  | PrintNormal [Str s] _ =>
      starts_with (nl +:+ "Error occurred when attempting to open group within <") s
  | _ => false
  end.

(** The events of the inspection and sampling of a selected variable and
    of its [except KeyError] handler: reads, the two titles, the printed row,
    the progress markers, the details of a mismatch, the summary, the error
    report. *)
Definition sample_stage_event (e : event) : bool :=
  match e with
  | LoadValues _ _ | ReadElems _ _ _ => true
  | LoadVariable _ _ _ _ | ReadRow _ _ _ _ => true
  | PrintNormal [StrList _] _ => false
  | PrintNormal [Str s] _ =>
      negb (starts_with (nl +:+ "Error occurred when attempting to open group within <") s)
  | PrintNormal _ _ => true
  | Print [Str _; Str s] _ =>
      starts_with (nl +:+ "Sample values within specified variable <") s
      || starts_with (nl +:+ "Checking multiple random values within specified variable <") s
      || String.eqb s " No mismatches."
  | Print _ _ => true
  | _ => false
  end.

(** What a run may emit when no group was selected, and when a group was
    selected but no variable. *)
Definition without_group_event (e : event) : bool :=
  report_event e || no_group_event e.

Definition without_variable_event (g : string) (e : event) : bool :=
  report_event e || group_listing_event g e.

(** The title that opens the all-variables stage. *)
Definition all_variables_title (e : event) : bool :=
  match e with
  | Print [Str _; Str s] _ => String.eqb s (nl +:+ "All variables:")
  | _ => false
  end.

(** A trace in which the all-variables stage was reached. *)
Definition reaches_all_variables (tr : list event) : bool :=
  existsb all_variables_title tr.

(** Reads of array elements. *)
Definition read_event (e : event) : bool :=
  match e with
  | LoadValues _ _ | ReadElems _ _ _ => true
  | LoadVariable _ _ _ _ | ReadRow _ _ _ _ => true
  | _ => false
  end.

(** The per-draw progress marker: [print_normal(c, end="")]. *)
Definition progress_marker (c : string) (e : event) : bool :=
  match e with
  | PrintNormal [Str s] end_ => String.eqb s c && String.eqb end_ ""
  | _ => false
  end.

Definition is_progress_marker (e : event) : bool :=
  progress_marker "." e || progress_marker "n" e || progress_marker "x" e.

(** Scalar elements the subscripts of a trace selected from one operand of
    the sampler. *)
Definition elements_selected (v : operand) (tr : list event) : nat :=
  sum_list_with
    (fun e =>
       match e, v with
       | ReadElems VarA _ count, VarA => count
       | ReadElems VarB _ count, VarB => count
       | _, _ => 0%nat
       end) tr.

(** Scalar elements the evaluations of [.values] in a trace loaded of one
    operand of the sampler, each evaluation counted in full. *)
Definition elements_loaded (v : operand) (tr : list event) : nat :=
  sum_list_with
    (fun e =>
       match e, v with
       | LoadValues VarA size, VarA => size
       | LoadValues VarB size, VarB => size
       | _, _ => 0%nat
       end) tr.

(** An evaluation of [.values] on one operand of the sampler. *)
Definition load_event (v : operand) (e : event) : bool :=
  match e, v with
  | LoadValues VarA _, VarA | LoadValues VarB _, VarB => true
  | _, _ => false
  end.

Definition count_events (P : event -> bool) (tr : list event) : nat :=
  length (filter (fun e => P e = true) tr).

(** The [no_color] block of [compare], under a name of its own for the
    proofs. *)
Definition disable_colors : M unit :=
  let* items := Fore_items in
  for_loop items (fun '(k, v) _ => Fore_setitem k "") tt ;;;
  let* items := Style_items in
  for_loop items (fun '(k, v) _ => Style_setitem k "") tt.

(** A namespace with every attribute overwritten with the empty string. *)
Definition blanked (ns : gmap string string) : gmap string string :=
  (fun _ => "") <$> ns.

(** ** Statements about the sampling loop *)

(** No call of [_match_random_value] on [a] and [b] reports a mismatch. *)
Definition never_mismatch (a b : DataArray) : Prop :=
  forall w r w',
    _match_random_value a b thresh_default w = (r, w') -> r <> Ok (Some false).

(** What one turn, or several, of the loop did: [n] bounds the counts, which
    are exact when the turns came to their end with [k']. *)
Definition turns_ok (a b : DataArray) (n : nat) (k : Z) (r : result Z)
    (tr : list event) : Prop :=
  (elements_selected VarA tr <= n)%nat /\
  ((length (da_shape b) <= length (da_shape a))%nat ->
   (elements_selected VarB tr <= n)%nat) /\
  (count_events is_progress_marker tr <= n)%nat /\
  (never_mismatch a b -> count_events (progress_marker "x") tr = 0%nat) /\
  (forall k', r = Ok k' ->
     elements_selected VarA tr = n /\ elements_selected VarB tr = n /\
     count_events is_progress_marker tr = n /\
     k' = k + Z.of_nat (count_events (progress_marker "x") tr)).

(** What the evaluations of [.values] in one turn, or several, of the loop
    loaded: at most [n] evaluations on each variable, each of the whole
    array, and exactly [n] when the turns came to their end. *)
Definition loads_ok (a b : DataArray) (n : nat) (r : result Z)
    (tr : list event) : Prop :=
  (count_events (load_event VarA) tr <= n)%nat /\
  (count_events (load_event VarB) tr <= n)%nat /\
  elements_loaded VarA tr
  = (count_events (load_event VarA) tr * size_of (da_shape a))%nat /\
  elements_loaded VarB tr
  = (count_events (load_event VarB) tr * size_of (da_shape b))%nat /\
  (forall k', r = Ok k' ->
     count_events (load_event VarA) tr = n /\
     count_events (load_event VarB) tr = n).

(** The progress marker [compare_multiple_random_values] prints for an
    outcome of [_match_random_value]. *)
Definition marker_of (outcome : option bool) : string :=
  match outcome with
  | Some true => "."
  | None => "n"
  | Some false => "x"
  end.

(** The progress markers of a trace, in the order they were printed. *)
Definition marker_printed (e : event) : option string :=
  match e with
  | PrintNormal [Str s] _ => if is_progress_marker e then Some s else None
  | _ => None
  end.

Definition markers (tr : list event) : list string := omap marker_printed tr.

(** The number of Mismatch outcomes among the outcomes of some draws. *)
Definition mismatches (outcomes : list (option bool)) : nat :=
  sum_list_with
    (fun r => match r with Some false => 1%nat | _ => 0%nat end) outcomes.

(** [draws a b w outcomes w']: starting in [w], [_match_random_value] was
    called once for each entry of [outcomes], in this order, each call in the
    world the one before left, returned that entry, and was followed by the
    progress marker of that entry, and nothing else happened; [w'] is the
    world at the end. *)
Inductive draws (a b : DataArray)
  : world -> list (option bool) -> world -> Prop :=
| draws_nil w : draws a b w [] w
| draws_cons w outcome w1 outcomes w' :
    _match_random_value a b thresh_default w = (Ok outcome, w1) ->
    draws a b (logged w1 [PrintNormal [Str (marker_of outcome)] ""])
      outcomes w' ->
    draws a b w (outcome :: outcomes) w'.

(** [b] is a copy of [a]: the same shape, the same value at every index. *)
Definition identical (a b : DataArray) : Prop :=
  da_shape b = da_shape a /\
  forall idx, in_bounds idx (da_shape a) -> da_values b idx = da_values a idx.

(** The events a run appended to the trace of the world it started from. *)
Definition new_events (w w' : world) : list event :=
  drop (length (w_out w)) (w_out w').

(** The loop would aggregate a count for each kind of outcome if the number
    of draws of each kind could be told from what it accumulates. *)
Definition aggregates_each_kind : Prop :=
  exists matches_of missing_of mismatches_of : Z -> nat,
    forall a b n w k w',
      random_values_loop a b n w = (Ok k, w') ->
      matches_of k = count_events (progress_marker ".") (new_events w w') /\
      missing_of k = count_events (progress_marker "n") (new_events w w') /\
      mismatches_of k = count_events (progress_marker "x") (new_events w w').

(** ** What a computation may do to the world

    [step P w w']: from [w] to [w'] the entropy source and the two colorama
    namespaces are untouched, and the trace grew by events that all satisfy
    [P]. *)

Definition step (P : event -> bool) (w w' : world) : Prop :=
  w_entropy w' = w_entropy w /\
  w_Fore w' = w_Fore w /\
  w_Style w' = w_Style w /\
  exists tr, w_out w' = w_out w ++ tr /\ Forall (fun e => P e = true) tr.

Definition respects (P : event -> bool) {A} (m : M A) : Prop :=
  forall w r w', m w = (r, w') -> step P w w'.

(** ** Statements about the remaining behaviour *)

(** Two worlds that agree on everything but the trace. *)
Definition same_state (w w' : world) : Prop :=
  w_entropy w' = w_entropy w /\ w_cursor w' = w_cursor w /\
  w_Fore w' = w_Fore w /\ w_Style w' = w_Style w.

(** More files: a group with a one-dimensional variable and with variables
    that differ in their scale factor only. *)
Module MoreFixtures.

Definition line : DataArray :=
  {| da_shape := [4]; da_values := fun ix => F64.of_Z (foldl Z.add 0 ix) |}.

Definition scaled (sf : option float64) : NcVariable :=
  {| v_dtype := "int16"; v_chunking := Some [1; 3]; v_scale_factor := sf;
     v_data := Fixtures.grid;
     v_getattr := fun name => Raise (AttributeError name) |}.

Definition file_c : Dataset :=
  {| ds_dims := [("x", 4)];
     ds_variables :=
       [("zero", scaled (Some (S754_zero false)));
        ("half", scaled (Some (S754_finite false 4503599627370496 (-53))))];
     ds_groups :=
       [("g", [("line", Fixtures.var_of line);
               ("temp", Fixtures.var_of Fixtures.grid)]);
        ("only_c", [("u", Fixtures.var_of Fixtures.grid)])];
     ds_group_dims :=
       fun g => if String.eqb g "g" then [("x", 4); ("lat", 2); ("lon", 3)]
                else [("lat", 2); ("lon", 3)] |}.

Definition fs1 (path : string) : option Dataset :=
  if String.eqb path "c.nc" then Some file_c else Fixtures.fs0 path.

End MoreFixtures.

(** The calls to the aligner recorded in a trace, in order. *)
Definition aligner_calls (tr : list event)
  : list (list string * list string) :=
  omap (fun e =>
          match e with
          | CommonElements a b => Some (a, b)
          | _ => None
          end) tr.

Definition side_by_side_event (e : event) : bool :=
  match e with
  | SideBySide _ _ _ _ _ => true
  | _ => false
  end.

(** The names [compare_two_nc_files] hands to the aligner for the side of a
    row of groups that holds the group [g]: the sorted names of the variables
    of that group, and none for the empty string, which stands for a side
    without counterpart. *)
Definition group_variable_names (ds : Dataset) (g : string) : list string :=
  if String.eqb g "" then []
  else match getitem (ds_groups ds) g with
       | Ok grp => sorted (keys grp)
       | Raise _ => []
       end.

(** The calls to the aligner that the rows of groups ask for, one for each
    row. *)
Definition group_calls (nc_a nc_b : Dataset)
    (rows : list (nat * string * string))
  : list (list string * list string) :=
  map (fun '(_, g_a, g_b) =>
         (group_variable_names nc_a g_a, group_variable_names nc_b g_b)) rows.

(** An aligner that returns only names it was given, or the empty string
    where a side has no counterpart. *)
Definition aligner_contract
    (common_elements :
       list string -> list string -> list (nat * string * string)) : Prop :=
  forall a b i l r,
    (i, l, r) ∈ common_elements a b ->
    (l = "" \/ l ∈ a) /\ (r = "" \/ r ∈ b).

(** A computation that returns, whatever the world, a value satisfying [Q]. *)
Definition succeeds {A} (Q : A -> Prop) (m : M A) : Prop :=
  forall w, exists x w', m w = (Ok x, w') /\ Q x.

(** [v] names nothing, or a variable that is where [_var_properties] looks
    for it. *)
Definition var_found (ds : Dataset) (v : string) (g : option string) : Prop :=
  v = "" \/
  if truthy g
  then exists grp var,
         getitem (ds_groups ds) (str_of g) = Ok grp /\ getitem grp v = Ok var
  else exists var, getitem (ds_variables ds) v = Ok var.

(** * Properties *)

(** ** The monad *)

Lemma bind_ok {A B} (m : M A) (k : A -> M B) w a w' :
  m w = (Ok a, w') -> bind m k w = k a w'.
Proof. intros H. unfold bind. by rewrite H. Qed.

Lemma bind_raise {A B} (m : M A) (k : A -> M B) w e w' :
  m w = (Raise e, w') -> bind m k w = (Raise e, w').
Proof. intros H. unfold bind. by rewrite H. Qed.

Lemma bind_emit {B} e (k : unit -> M B) w :
  bind (emit e) k w = k tt (logged w [e]).
Proof. reflexivity. Qed.

Lemma bind_ret {A B} (a : A) (k : A -> M B) w : bind (ret a) k w = k a w.
Proof. reflexivity. Qed.

Lemma bind_assoc {A B C} (m : M A) (f : A -> M B) (g : B -> M C) w :
  bind (bind m f) g w = bind m (fun x => bind (f x) g) w.
Proof. unfold bind. by destruct (m w) as [[x|e] w1]. Qed.

Lemma bind_inv {A B} (m : M A) (k : A -> M B) w r w' :
  bind m k w = (r, w') ->
  (exists a w1, m w = (Ok a, w1) /\ k a w1 = (r, w')) \/
  (exists e, m w = (Raise e, w') /\ r = Raise e).
Proof.
  unfold bind. destruct (m w) as [[a|e] w1]; intros H.
  - left. eauto.
  - right. inversion H; subst. eauto.
Qed.

Lemma try_except_raise {A} (m : M A) h k w e w' :
  m w = (Raise e, w') -> h e = Some k -> try_except m h w = k w'.
Proof. intros Hm Hh. unfold try_except. by rewrite Hm, Hh. Qed.

(** ** What a computation may do to the world *)

Lemma step_refl P w : step P w w.
Proof.
  repeat split. exists []. split; [by rewrite app_nil_r | constructor].
Qed.

Lemma step_trans P w1 w2 w3 : step P w1 w2 -> step P w2 w3 -> step P w1 w3.
Proof.
  intros (He1 & Hf1 & Hs1 & tr1 & Ht1 & HP1) (He2 & Hf2 & Hs2 & tr2 & Ht2 & HP2).
  repeat split; try congruence.
  exists (tr1 ++ tr2). split.
  - rewrite Ht2, Ht1. by rewrite app_assoc.
  - by apply Forall_app.
Qed.

Lemma step_mono (P Q : event -> bool) w w' :
  (forall e, P e = true -> Q e = true) -> step P w w' -> step Q w w'.
Proof.
  intros HPQ (He & Hf & Hs & tr & Ht & HP). repeat split; try done.
  exists tr. split; [done |]. eapply Forall_impl; eauto.
Qed.

Section Respects.

Context (P : event -> bool).

Lemma respects_ret {A} (a : A) : respects P (ret a).
Proof. intros w r w' H. inversion H; subst. apply step_refl. Qed.

Lemma respects_raise {A} (e : exn) : respects P (@raise A e).
Proof. intros w r w' H. inversion H; subst. apply step_refl. Qed.

Lemma respects_lift {A} (x : result A) : respects P (lift x).
Proof. intros w r w' H. inversion H; subst. apply step_refl. Qed.

Lemma respects_bind {A B} (m : M A) (k : A -> M B) :
  respects P m -> (forall a, respects P (k a)) -> respects P (bind m k).
Proof.
  intros Hm Hk w r w' H.
  apply bind_inv in H as [(a & w1 & H1 & H2) | (e & H1 & _)].
  - eapply step_trans; [by eapply Hm | by eapply Hk].
  - by eapply Hm.
Qed.

Lemma respects_try_except {A} (m : M A) h :
  respects P m -> (forall e k, h e = Some k -> respects P k) ->
  respects P (try_except m h).
Proof.
  intros Hm Hh w r w' H. unfold try_except in H.
  destruct (m w) as [[a|e] w1] eqn:E.
  - inversion H; subst. by eapply Hm.
  - destruct (h e) as [k|] eqn:Ek.
    + eapply step_trans; [by eapply Hm | by eapply Hh].
    + inversion H; subst. by eapply Hm.
Qed.

Lemma respects_for_loop {A S} (xs : list A) (body : A -> S -> M S) s :
  (forall x s', respects P (body x s')) -> respects P (for_loop xs body s).
Proof.
  intros Hb. revert s. induction xs as [|x xs IH]; intros s; simpl.
  - apply respects_ret.
  - apply respects_bind; [apply Hb | intros; apply IH].
Qed.

Lemma respects_emit e : P e = true -> respects P (emit e).
Proof.
  intros HP w r w' H. inversion H; subst. repeat split; simpl.
  exists [e]. split; [done | by constructor].
Qed.

Lemma respects_randint a b : respects P (randint a b).
Proof.
  intros w r w' H. unfold randint in H.
  destruct (b - a + 1 <=? 0); inversion H; subst; [apply step_refl |].
  repeat split; simpl. exists []. by rewrite app_nil_r.
Qed.

Lemma respects_Fore name : respects P (Fore name).
Proof.
  intros w r w' H. unfold Fore in H.
  destruct (w_Fore w !! name); inversion H; subst; apply step_refl.
Qed.

Lemma respects_Style name : respects P (Style name).
Proof.
  intros w r w' H. unfold Style in H.
  destruct (w_Style w !! name); inversion H; subst; apply step_refl.
Qed.

End Respects.

Lemma respects_mono (P Q : event -> bool) {A} (m : M A) :
  (forall e, P e = true -> Q e = true) -> respects P m -> respects Q m.
Proof. intros HPQ Hm w r w' H. eapply step_mono; eauto. Qed.

(** Breaks a goal [respects P m] down along the structure of [m]. *)
Ltac respects_step :=
  match goal with
  | |- respects _ (bind _ _) => apply respects_bind; [| intros ?]
  | |- respects _ (ret _) => apply respects_ret
  | |- respects _ (raise _) => apply respects_raise
  | |- respects _ (lift _) => apply respects_lift
  | |- respects _ (for_loop _ _ _) => apply respects_for_loop; intros ? ?
  | |- respects _ (randint _ _) => apply respects_randint
  | |- respects _ (Fore _) => apply respects_Fore
  | |- respects _ (Style _) => apply respects_Style
  | |- respects _ (emit _) => apply respects_emit; try reflexivity
  | |- respects _ (print _) => apply respects_emit; try reflexivity
  | |- respects _ (print_normal _) => apply respects_emit; try reflexivity
  | |- respects _ (print_normal_end _ _) => apply respects_emit; try reflexivity
  | |- respects _ (if ?b then _ else _) => destruct b
  | |- respects _ (match ?x with _ => _ end) => destruct x
  | |- respects _ (let '(_, _) := ?x in _) => destruct x
  | |- respects _ ((match ?x with _ => _ end) _) => destruct x; simpl
  end.

Ltac respects_auto := repeat respects_step.

(** ** Every function extends the trace and leaves the namespaces alone *)

Section Frames.

Context (fs : string -> option Dataset)
        (common_elements :
           list string -> list string -> list (nat * string * string)).

Lemma respects_Dataset_open P path : respects P (Dataset_open fs path).
Proof. unfold Dataset_open. respects_auto. Qed.

Lemma respects_xr_open_dataset P path group :
  respects P (xr_open_dataset fs path group).
Proof.
  unfold xr_open_dataset. respects_auto; apply respects_Dataset_open.
Qed.

Lemma respects_xr_getitem P ds name : respects P (xr_getitem ds name).
Proof. unfold xr_getitem. respects_auto. Qed.

Lemma respects_values_getitem v a idx :
  respects read_event (values_getitem v a idx).
Proof. unfold values_getitem. respects_auto. Qed.

Lemma respects_random_index P shape : respects P (random_index shape).
Proof. unfold random_index. respects_auto. Qed.

Lemma respects_match_random_value a b thresh :
  respects any_event (_match_random_value a b thresh).
Proof.
  unfold _match_random_value. respects_auto;
    try apply respects_random_index;
    eapply respects_mono; try apply respects_values_getitem; done.
Qed.

Lemma respects_random_values_loop a b n :
  respects any_event (random_values_loop a b n).
Proof.
  unfold random_values_loop. respects_auto;
    apply respects_match_random_value.
Qed.

Lemma respects_compare_multiple_random_values a b g v n :
  respects any_event (compare_multiple_random_values fs a b g v n).
Proof.
  unfold compare_multiple_random_values. respects_auto;
    first [ apply respects_xr_open_dataset | apply respects_xr_getitem
          | apply respects_random_values_loop ].
Qed.

Lemma respects_get_dims P path : respects P (_get_dims fs path false).
Proof.
  unfold _get_dims. respects_auto. apply respects_xr_open_dataset.
Qed.

Lemma respects_get_groups P path : respects P (_get_groups fs path false).
Proof. unfold _get_groups. respects_auto. apply respects_Dataset_open. Qed.

Lemma respects_print_vars g path g' :
  respects (group_listing_event g) (_print_vars fs path g').
Proof.
  unfold _print_vars. respects_auto.
  apply respects_try_except; [apply respects_xr_open_dataset |].
  intros e k Hk. destruct e; inversion Hk; subst. respects_auto.
Qed.

Lemma respects_print_sample_values path g v :
  respects any_event (_print_sample_values fs path g v).
Proof.
  unfold _print_sample_values. respects_auto;
    first [ apply respects_xr_open_dataset | apply respects_xr_getitem ].
Qed.

Lemma respects_var_properties P ds v g : respects P (_var_properties ds v g).
Proof. unfold _var_properties. respects_auto. Qed.

Lemma respects_print_var_properties v_a v_b nc_a nc_b g_a g_b show :
  respects report_event
    (_print_var_properties_side_by_side v_a v_b nc_a nc_b g_a g_b show).
Proof.
  unfold _print_var_properties_side_by_side, side_by_side.
  respects_auto; apply respects_var_properties.
Qed.

Lemma respects_compare_two_nc_files a b show :
  respects report_event (compare_two_nc_files fs common_elements a b show).
Proof.
  unfold compare_two_nc_files, side_by_side, call_common_elements.
  respects_auto;
    first [ apply respects_Dataset_open
          | apply respects_print_var_properties ].
Qed.

Lemma respects_all_variables_stage a b show :
  respects report_event (all_variables_stage fs common_elements a b show).
Proof.
  unfold all_variables_stage. respects_auto.
  apply respects_compare_two_nc_files.
Qed.

Lemma respects_root_stages a b : respects report_event (root_stages fs a b).
Proof.
  unfold root_stages, lists_diff. respects_auto;
    first [ apply respects_get_dims | apply respects_get_groups ].
Qed.

Lemma respects_group_listing_stage a b g :
  respects (group_listing_event g) (group_listing_stage fs a b g).
Proof.
  unfold group_listing_stage, lists_diff. respects_auto;
    try apply respects_print_vars.
  - simpl. by rewrite String.eqb_refl.
Qed.

Lemma respects_sample_values_stage a b g v :
  respects any_event (sample_values_stage fs a b g v).
Proof.
  unfold sample_values_stage. respects_auto;
    first [ apply respects_print_sample_values
          | apply respects_compare_multiple_random_values ].
Qed.

Lemma respects_key_error_handler g v e k :
  key_error_handler g v e = Some k -> respects any_event k.
Proof.
  destruct e; intros H; inversion H; subst. respects_auto.
Qed.

Lemma respects_run_through_comparisons a b g v show :
  respects any_event
    (run_through_comparisons fs common_elements a b g v show).
Proof.
  unfold run_through_comparisons. respects_auto.
  - eapply respects_mono; [| apply respects_root_stages]; done.
  - eapply respects_mono; [| apply respects_group_listing_stage]; done.
  - apply respects_try_except; [apply respects_sample_values_stage |].
    intros e k. apply respects_key_error_handler.
  - eapply respects_mono; [| apply respects_all_variables_stage]; done.
Qed.

End Frames.

(** ** Floating point facts *)

Lemma F64_sub_self_within (x : float64) :
  F64.isnan x = false ->
  F64.gt (F64.abs (F64.sub x x)) F64.lit_1e_6 = false.
Proof.
  destruct x as [s|s| |s m e]; intros Hnan; try discriminate.
  - destruct s; reflexivity.
  - destruct s; reflexivity.
  - unfold F64.sub, SFsub. rewrite Z.sub_diag. reflexivity.
Qed.

(** [lit_1e_6] is the binary64 nearest to 10^-6: a valid binary64 whose
    distance to 10^-6 is at most half a unit in its last place. *)
Lemma F64_lit_1e_6_nearest :
  valid_binary F64.prec F64.emax F64.lit_1e_6 = true /\
  (2 * 4722366482869645 - 1) * 10 ^ 6 < 2 ^ 73 < (2 * 4722366482869645 + 1) * 10 ^ 6.
Proof. split; [reflexivity | split; reflexivity]. Qed.

(** ** The random index *)

Lemma randint_ok a b w :
  a <= b ->
  randint a b w =
  (Ok (a + w_entropy w (w_cursor w) mod (b - a + 1)), advance w 1).
Proof.
  intros Hab. unfold randint, advance.
  destruct (Z.leb_spec (b - a + 1) 0); [lia |].
  by rewrite Nat.add_1_r.
Qed.

Lemma randint_empty a b w :
  b < a -> exists msg, randint a b w = (Raise (ValueError msg), w).
Proof.
  intros Hab. unfold randint.
  destruct (Z.leb_spec (b - a + 1) 0); [eauto | lia].
Qed.

Lemma random_index_loop_ok shape : forall acc w,
  Forall (fun d => 1 <= d) shape ->
  exists idx,
    in_bounds idx shape /\
    for_loop shape
      (fun d rand_index =>
         let* i := randint 0 (d - 1) in ret (rand_index ++ [i])) acc w =
    (Ok (acc ++ idx), advance w (length shape)).
Proof.
  induction shape as [|d shape IH]; intros acc w Hpos.
  - exists []. split; [constructor |]. simpl. unfold ret, advance.
    rewrite app_nil_r, Nat.add_0_r. by destruct w.
  - inversion Hpos as [|? ? Hd Hrest]; subst.
    set (i := 0 + w_entropy w (w_cursor w) mod (d - 1 - 0 + 1)).
    destruct (IH (acc ++ [i]) (advance w 1) Hrest) as (idx & Hin & Heq).
    exists (i :: idx). split.
    + constructor; [| done]. unfold i.
      pose proof (Z.mod_pos_bound (w_entropy w (w_cursor w)) (d - 1 - 0 + 1)).
      lia.
    + simpl for_loop.
      erewrite bind_ok; [| erewrite bind_ok; [reflexivity |]; apply randint_ok; lia].
      fold i. rewrite Heq, <- app_assoc. simpl. f_equal.
      unfold advance; simpl. f_equal. lia.
Qed.

Lemma random_index_loop_empty shape : forall acc w,
  0 ∈ shape ->
  exists msg w',
    for_loop shape
      (fun d rand_index =>
         let* i := randint 0 (d - 1) in ret (rand_index ++ [i])) acc w =
    (Raise (ValueError msg), w') /\ w_out w' = w_out w.
Proof.
  induction shape as [|d shape IH]; intros acc w Hin.
  - by apply elem_of_nil in Hin.
  - simpl for_loop. destruct (Z.le_gt_cases d 0) as [Hle|Hgt].
    + destruct (randint_empty 0 (d - 1) w ltac:(lia)) as [msg Hr].
      exists msg, w. split; [| done].
      erewrite bind_raise; [reflexivity |].
      erewrite bind_raise; [reflexivity | exact Hr].
    + apply elem_of_cons in Hin as [Hd|Hin]; [lia |].
      set (i := 0 + w_entropy w (w_cursor w) mod (d - 1 - 0 + 1)).
      destruct (IH (acc ++ [i]) (advance w 1) Hin) as (msg & w' & Heq & Hout).
      exists msg, w'. split; [| exact Hout].
      erewrite bind_ok; [| erewrite bind_ok; [reflexivity |]; apply randint_ok; lia].
      exact Heq.
Qed.

Lemma in_bounds_length idx shape : in_bounds idx shape -> length idx = length shape.
Proof. apply Forall2_length. Qed.

Lemma normalize_index_in_bounds idx shape :
  in_bounds idx shape -> normalize_index idx shape = Ok idx.
Proof.
  induction 1 as [|i d idx shape Hi _ IH]; simpl; [done |].
  destruct (Z.leb_spec 0 i); [| lia].
  destruct (Z.ltb_spec i d); [| lia].
  simpl. by rewrite IH.
Qed.

Lemma values_getitem_in_bounds v a idx w :
  in_bounds idx (da_shape a) ->
  values_getitem v a idx w =
  (Ok (da_values a idx),
   logged w [LoadValues v (size_of (da_shape a)); ReadElems v idx 1]).
Proof.
  intros Hin. unfold values_getitem.
  rewrite (normalize_index_in_bounds _ _ Hin).
  rewrite (in_bounds_length _ _ Hin), drop_all.
  unfold bind, emit, ret, logged. simpl. by rewrite <- app_assoc.
Qed.

Lemma emit_logged e w : emit e w = (Ok tt, logged w [e]).
Proof. reflexivity. Qed.

Lemma logged_logged w tr1 tr2 :
  logged (logged w tr1) tr2 = logged w (tr1 ++ tr2).
Proof. unfold logged; simpl. by rewrite app_assoc. Qed.

(** ** One sampling step *)


(** C2: when either sampled value is NaN, on one side only or on both,
    [_match_random_value] returns [None] (BothMissing), never [True] nor
    [False], and prints nothing. *)
Theorem C2_nan_is_both_missing (a b : DataArray) (thresh : float64)
    (w w1 w2 w3 : world) (idx : list Z) (v1 v2 : float64) :
  random_index (da_shape a) w = (Ok idx, w1) ->
  values_getitem VarA a idx w1 = (Ok v1, w2) ->
  values_getitem VarB b idx w2 = (Ok v2, w3) ->
  F64.isnan v1 = true \/ F64.isnan v2 = true ->
  _match_random_value a b thresh w = (Ok None, w3).
Proof.
  intros Hidx H1 H2 Hnan. unfold _match_random_value.
  rewrite (bind_ok _ _ _ _ _ Hidx), (bind_ok _ _ _ _ _ H1),
    (bind_ok _ _ _ _ _ H2).
  destruct Hnan as [-> | ->]; [reflexivity |].
  by rewrite orb_true_r.
Qed.

(** C9: when every extent of [var_a]'s shape is at least 1, the drawn index
    has one component per dimension, each in [0, extent), so the read of
    [var_a] at it succeeds, and so does the read of a [var_b] of the same
    shape; when an extent is 0 the draw raises [ValueError] and no value has
    been read. *)
Theorem C9_random_index_in_bounds (a b : DataArray) (thresh : float64)
    (w : world) :
  (Forall (fun d => 1 <= d) (da_shape a) ->
   exists idx,
     random_index (da_shape a) w =
       (Ok idx, advance w (length (da_shape a))) /\
     in_bounds idx (da_shape a) /\
     (forall w1, values_getitem VarA a idx w1 =
                 (Ok (da_values a idx),
                  logged w1 [LoadValues VarA (size_of (da_shape a));
                             ReadElems VarA idx 1])) /\
     (da_shape b = da_shape a ->
      forall w1, values_getitem VarB b idx w1 =
                 (Ok (da_values b idx),
                  logged w1 [LoadValues VarB (size_of (da_shape b));
                             ReadElems VarB idx 1]))) /\
  (0 ∈ da_shape a ->
   exists msg w',
     _match_random_value a b thresh w = (Raise (ValueError msg), w') /\
     w_out w' = w_out w).
Proof.
  split.
  - intros Hpos.
    destruct (random_index_loop_ok (da_shape a) [] w Hpos) as (idx & Hin & Heq).
    exists idx. repeat split.
    + exact Heq.
    + exact Hin.
    + intros w1. by apply values_getitem_in_bounds.
    + intros Hshape w1. apply values_getitem_in_bounds. by rewrite Hshape.
  - intros Hzero.
    destruct (random_index_loop_empty (da_shape a) [] w Hzero)
      as (msg & w' & Heq & Hout).
    exists msg, w'. split; [| exact Hout].
    unfold _match_random_value. by apply bind_raise.
Qed.


Lemma C2_witness :
  _match_random_value Fixtures.grid Fixtures.grid_nan thresh_default
    Fixtures.w0 =
  (Ok None,
   logged (advance Fixtures.w0 2)
     [LoadValues VarA 6; ReadElems VarA [0; 1] 1;
      LoadValues VarB 6; ReadElems VarB [0; 1] 1]).
Proof.
  eapply (C2_nan_is_both_missing Fixtures.grid Fixtures.grid_nan
            thresh_default Fixtures.w0 _ _ _ [0; 1] _ _
            eq_refl eq_refl eq_refl).
  right. reflexivity.
Defined.

Lemma C9_witness :
  (exists idx,
     random_index [2; 3] Fixtures.w0 = (Ok idx, advance Fixtures.w0 2) /\
     in_bounds idx [2; 3]) /\
  (exists msg w',
     _match_random_value Fixtures.grid_empty Fixtures.grid_empty
       thresh_default Fixtures.w0 = (Raise (ValueError msg), w') /\
     w_out w' = []).
Proof.
  split.
  - destruct (proj1 (C9_random_index_in_bounds Fixtures.grid Fixtures.grid
                       thresh_default Fixtures.w0))
      as (idx & Heq & Hin & _).
    + repeat constructor; simpl; lia.
    + exists idx. split; [exact Heq | exact Hin].
  - apply (proj2 (C9_random_index_in_bounds Fixtures.grid_empty
                    Fixtures.grid_empty thresh_default Fixtures.w0)).
    simpl. repeat constructor.
Defined.

(** ** The sampling loop *)

Lemma match_random_value_unfold a b thresh :
  _match_random_value a b thresh =
  (let* rand_index := random_index (da_shape a) in
   let* v1 := values_getitem VarA a rand_index in
   let* v2 := values_getitem VarB b rand_index in
   evaluate_values a rand_index v1 v2 thresh).
Proof. reflexivity. Qed.

Lemma advance_advance w n m : advance (advance w n) m = advance w (n + m).
Proof. unfold advance; simpl. by rewrite Nat.add_assoc. Qed.

Lemma random_index_loop_inv shape : forall acc w r w',
  for_loop shape
    (fun d rand_index =>
       let* i := randint 0 (d - 1) in ret (rand_index ++ [i])) acc w = (r, w') ->
  w_out w' = w_out w /\
  forall res, r = Ok res ->
    exists idx, res = acc ++ idx /\ in_bounds idx shape /\
                w' = advance w (length shape).
Proof.
  induction shape as [|d shape IH]; intros acc w r w' H.
  - inversion H; subst. split; [done |]. intros res [= <-].
    exists []. rewrite app_nil_r. split; [done |]. split; [constructor |].
    unfold advance. rewrite Nat.add_0_r. by destruct w'.
  - simpl for_loop in H. destruct (Z.le_gt_cases d 0) as [Hle|Hgt].
    + destruct (randint_empty 0 (d - 1) w ltac:(lia)) as [msg Hr].
      erewrite bind_raise in H;
        [| erewrite bind_raise; [reflexivity | exact Hr]].
      inversion H; subst. split; [done |]. intros res [=].
    + set (i := 0 + w_entropy w (w_cursor w) mod (d - 1 - 0 + 1)) in *.
      erewrite bind_ok in H;
        [| erewrite bind_ok; [reflexivity |]; apply randint_ok; lia].
      fold i in H. apply IH in H as [Hout Hres].
      split; [exact Hout |]. intros res ->.
      destruct (Hres _ eq_refl) as (idx & -> & Hin & ->).
      exists (i :: idx). rewrite <- app_assoc. split; [done |]. split.
      * constructor; [| done]. unfold i.
        pose proof (Z.mod_pos_bound (w_entropy w (w_cursor w)) (d - 1 - 0 + 1)).
        lia.
      * rewrite advance_advance. reflexivity.
Qed.

Lemma random_index_inv shape w r w' :
  random_index shape w = (r, w') ->
  w_out w' = w_out w /\
  forall idx, r = Ok idx -> in_bounds idx shape /\ w' = advance w (length shape).
Proof.
  intros H. apply random_index_loop_inv in H as [Hout Hres].
  split; [exact Hout |]. intros idx ->.
  destruct (Hres _ eq_refl) as (idx' & Heq & Hin & Hw). simpl in Heq.
  by subst.
Qed.

Lemma values_getitem_inv v a idx w r w' :
  values_getitem v a idx w = (r, w') ->
  (w' = logged w [LoadValues v (size_of (da_shape a))] /\
   exists e, r = Raise e) \/
  (exists idx',
     normalize_index idx (da_shape a) = Ok idx' /\
     w' = logged w
            [LoadValues v (size_of (da_shape a));
             ReadElems v idx' (size_of (drop (length idx) (da_shape a)))] /\
     (forall x, r = Ok x ->
        x = da_values a idx' /\
        size_of (drop (length idx) (da_shape a)) = 1%nat) /\
     ((length (da_shape a) <= length idx)%nat ->
      size_of (drop (length idx) (da_shape a)) = 1%nat)).
Proof.
  unfold values_getitem. rewrite bind_emit. intros H.
  destruct (normalize_index idx (da_shape a)) as [idx'|e] eqn:Hn.
  - right. exists idx'. split; [done |].
    assert (Hlog : forall e1 e2,
               logged (logged w [e1]) [e2] = logged w [e1; e2]).
    { intros. unfold logged. simpl. by rewrite <- app_assoc. }
    destruct (drop (length idx) (da_shape a)) as [|d rest] eqn:Hd.
    + inversion H; subst. split; [apply Hlog |]. split; [| done].
      by intros x [= <-].
    + inversion H; subst. split; [apply Hlog |]. split; [by intros x [=] |].
      intros Hlen. rewrite drop_ge in Hd by lia. discriminate.
  - left. inversion H; subst. eauto.
Qed.

Lemma evaluate_values_inv a idx v1 v2 thresh w r w' :
  evaluate_values a idx v1 v2 thresh w = (r, w') ->
  step detail_event w w' /\
  (r = Ok (Some false) ->
   F64.isnan v1 = false /\ F64.isnan v2 = false /\
   F64.gt (F64.abs (F64.sub v2 v1)) thresh = true).
Proof.
  intros H. split.
  - revert H. generalize w r w'.
    change (respects detail_event (evaluate_values a idx v1 v2 thresh)).
    unfold evaluate_values. respects_auto.
  - intros ->. unfold evaluate_values in H.
    destruct (F64.isnan v1) eqn:E1; [discriminate |].
    destruct (F64.isnan v2) eqn:E2; [discriminate |].
    simpl in H.
    destruct (F64.gt (F64.abs (F64.sub v2 v1)) thresh) eqn:E3; [done |].
    discriminate.
Qed.

Lemma elements_selected_app v tr1 tr2 :
  elements_selected v (tr1 ++ tr2) =
  (elements_selected v tr1 + elements_selected v tr2)%nat.
Proof. unfold elements_selected. by rewrite sum_list_with_app. Qed.

Lemma count_events_app P tr1 tr2 :
  count_events P (tr1 ++ tr2) = (count_events P tr1 + count_events P tr2)%nat.
Proof. unfold count_events. by rewrite filter_app, length_app. Qed.

Lemma detail_event_quiet e :
  detail_event e = true ->
  (forall v, elements_selected v [e] = 0%nat) /\
  (forall c, progress_marker c e = false).
Proof.
  intros He.
  destruct e as [t ?|t ?| | | | | | | |]; simpl in He; try done.
  destruct t as [|f1 [|f2 t]]; try done.
  split; [intros []; reflexivity | intros c; destruct f1; reflexivity].
Qed.

Lemma detail_events_quiet tr :
  Forall (fun e => detail_event e = true) tr ->
  (forall v, elements_selected v tr = 0%nat) /\
  (forall c, count_events (progress_marker c) tr = 0%nat) /\
  count_events is_progress_marker tr = 0%nat.
Proof.
  induction 1 as [|e tr He _ (IH1 & IH2 & IH3)]; [done |].
  destruct (detail_event_quiet e He) as [Hr Hm].
  assert (Hsplit : e :: tr = [e] ++ tr) by done.
  rewrite Hsplit. repeat split; intros;
    rewrite ?elements_selected_app, ?count_events_app, ?IH1, ?IH2, ?IH3, ?Hr,
      ?Nat.add_0_r; try done.
  - unfold count_events. simpl. rewrite filter_cons_False, filter_nil; [done |].
    by rewrite Hm.
  - unfold count_events. simpl. rewrite filter_cons_False, filter_nil; [done |].
    unfold is_progress_marker. by rewrite !Hm.
Qed.

(** Closes goals that count events of an explicit trace. *)
Ltac count_tac :=
  try done;
  try (intros; unfold elements_selected, count_events; simpl; (lia || done)).

(** One call of [_match_random_value], whatever its outcome. *)
Lemma match_random_value_step a b thresh w r w' :
  _match_random_value a b thresh w = (r, w') ->
  exists tr,
    w_out w' = w_out w ++ tr /\
    (elements_selected VarA tr <= 1)%nat /\
    ((length (da_shape b) <= length (da_shape a))%nat ->
     (elements_selected VarB tr <= 1)%nat) /\
    count_events is_progress_marker tr = 0%nat /\
    (forall c, count_events (progress_marker c) tr = 0%nat) /\
    (forall m, r = Ok m ->
       elements_selected VarA tr = 1%nat /\ elements_selected VarB tr = 1%nat) /\
    (r = Ok (Some false) ->
     exists idx idx',
       in_bounds idx (da_shape a) /\
       normalize_index idx (da_shape b) = Ok idx' /\
       F64.isnan (da_values a idx) = false /\
       F64.isnan (da_values b idx') = false /\
       F64.gt (F64.abs (F64.sub (da_values b idx') (da_values a idx))) thresh
       = true).
Proof.
  rewrite match_random_value_unfold. intros H.
  apply bind_inv in H as [(idx & w1 & Hidx & H) | (e & Hidx & ->)].
  2:{ apply random_index_inv in Hidx as [Hout _].
      exists []. rewrite app_nil_r. repeat split; count_tac. }
  apply random_index_inv in Hidx as [_ Hidx].
  destruct (Hidx _ eq_refl) as [Hin ->]. clear Hidx.
  rewrite (bind_ok _ _ _ _ _ (values_getitem_in_bounds VarA a idx _ Hin)) in H.
  apply bind_inv in H as [(v2 & w2 & Hb & H) | (e & Hb & ->)].
  - apply values_getitem_inv in Hb
      as [[_ [e [=]]] | (idx' & Hn & -> & Hok & _)].
    destruct (Hok _ eq_refl) as [-> Hsz]. rewrite Hsz in *.
    apply evaluate_values_inv in H as [(_ & _ & _ & tr & Hout & Htr) Hmis].
    destruct (detail_events_quiet tr Htr) as (Hr & Hm & Hpm).
    exists ([LoadValues VarA (size_of (da_shape a)); ReadElems VarA idx 1;
             LoadValues VarB (size_of (da_shape b)); ReadElems VarB idx' 1]
            ++ tr).
    rewrite !elements_selected_app, !count_events_app, !Hr, !Hpm.
    split; [rewrite Hout; simpl; by rewrite <- !app_assoc |].
    repeat split; count_tac.
    intros ->. exists idx, idx'. destruct (Hmis eq_refl) as (? & ? & ?).
    done.
  - apply values_getitem_inv in Hb
      as [[-> _] | (idx' & Hn & -> & _ & Hsz)].
    + exists [LoadValues VarA (size_of (da_shape a)); ReadElems VarA idx 1;
              LoadValues VarB (size_of (da_shape b))].
      split; [simpl; by rewrite <- app_assoc |].
      repeat split; count_tac.
    + exists [LoadValues VarA (size_of (da_shape a)); ReadElems VarA idx 1;
              LoadValues VarB (size_of (da_shape b));
              ReadElems VarB idx'
                (size_of (drop (length idx) (da_shape b)))].
      split; [simpl; by rewrite <- app_assoc |].
      repeat split; count_tac.
      intros Hrank. unfold elements_selected; simpl.
      rewrite Hsz; [lia |]. rewrite (in_bounds_length _ _ Hin). exact Hrank.
Qed.

Lemma random_values_loop_unfold a b n :
  random_values_loop a b n = for_loop (seq 0 n) (draw_and_mark a b) 0.
Proof. reflexivity. Qed.

Lemma draw_and_mark_inv a b i k w r w' :
  draw_and_mark a b i k w = (r, w') ->
  exists tr, w_out w' = w_out w ++ tr /\ turns_ok a b 1 k r tr.
Proof.
  unfold draw_and_mark. intros H.
  apply bind_inv in H as [(m & w0 & Hm & H) | (e & Hm & ->)].
  - pose proof (match_random_value_step _ _ _ _ _ _ Hm)
      as (tr & Hout & HA & HB & Hpm & Hc & Hok & _).
    destruct (Hok _ eq_refl) as [HA1 HB1].
    assert (Hmark : exists c k1,
               r = Ok k1 /\ w_out w' = w_out w0 ++ [PrintNormal [Str c] ""] /\
               (c = "." \/ c = "n" \/ c = "x") /\
               (c = "x" -> m = Some false) /\
               k1 = k + Z.of_nat (count_events (progress_marker "x")
                                    [PrintNormal [Str c] ""])).
    { destruct m as [[|]|]; inversion H; subst; simpl;
        [exists "." | exists "x" | exists "n"]; eexists;
        repeat split; eauto; try discriminate; count_tac. }
    destruct Hmark as (c & k1 & -> & Hout' & Hc3 & Hx & Hk1).
    exists (tr ++ [PrintNormal [Str c] ""]).
    split; [by rewrite Hout', Hout, app_assoc |].
    unfold turns_ok.
    rewrite !elements_selected_app, !count_events_app, Hpm, Hc, HA1, HB1.
    assert (Hone : count_events is_progress_marker [PrintNormal [Str c] ""]
                   = 1%nat)
      by (destruct Hc3 as [->|[->| ->]]; reflexivity).
    rewrite Hone. repeat split; count_tac.
    + intros Hno.
      destruct Hc3 as [->|[->| ->]]; [reflexivity | reflexivity |].
      exfalso. eapply Hno; [exact Hm |]. by rewrite Hx.
    + match goal with Hk : Ok _ = Ok _ |- _ => injection Hk as <- end.
      exact Hk1.
  - pose proof (match_random_value_step _ _ _ _ _ _ Hm)
      as (tr & Hout & HA & HB & Hpm & Hc & _ & _).
    exists tr. split; [exact Hout |].
    unfold turns_ok. rewrite Hpm, Hc. repeat split; count_tac.
Qed.

Lemma draw_and_mark_loop a b xs : forall k w r w',
  for_loop xs (draw_and_mark a b) k w = (r, w') ->
  exists tr, w_out w' = w_out w ++ tr /\ turns_ok a b (length xs) k r tr.
Proof.
  induction xs as [|x xs IH]; intros k w r w' H.
  - inversion H; subst. exists []. rewrite app_nil_r. split; [done |].
    unfold turns_ok. repeat split; count_tac.
    match goal with Hk : Ok _ = Ok _ |- _ => injection Hk as <- end.
    count_tac.
  - simpl for_loop in H.
    apply bind_inv in H as [(k1 & w1 & H1 & H) | (e & H1 & ->)].
    + apply draw_and_mark_inv in H1
        as (tr1 & Hout1 & HA1 & HB1 & Hp1 & Hx1 & Hok1).
      apply IH in H as (tr2 & Hout2 & HA2 & HB2 & Hp2 & Hx2 & Hok2).
      destruct (Hok1 _ eq_refl) as (EA & EB & Ep & ->).
      exists (tr1 ++ tr2). split; [by rewrite Hout2, Hout1, app_assoc |].
      unfold turns_ok.
      rewrite !elements_selected_app, !count_events_app. simpl length.
      split; [lia |]. split.
      { intros Hrank. specialize (HB1 Hrank). specialize (HB2 Hrank). lia. }
      split; [lia |]. split.
      { intros Hno. by rewrite Hx1, Hx2. }
      intros k' Hk. destruct (Hok2 _ Hk) as (? & ? & ? & ?). lia.
    + apply draw_and_mark_inv in H1
        as (tr1 & Hout1 & HA1 & HB1 & Hp1 & Hx1 & _).
      exists tr1. split; [exact Hout1 |].
      unfold turns_ok. simpl length.
      split; [lia |]. split.
      { intros Hrank. specialize (HB1 Hrank). lia. }
      split; [lia |]. split; [exact Hx1 |]. intros k' [=].
Qed.

Lemma identical_never_mismatch a b : identical a b -> never_mismatch a b.
Proof.
  intros [Hshape Hval] w r w' H ->.
  apply match_random_value_step in H as (_ & _ & _ & _ & _ & _ & _ & Hmis).
  destruct (Hmis eq_refl) as (idx & idx' & Hin & Hn & Hn1 & _ & Hgt).
  rewrite Hshape, (normalize_index_in_bounds _ _ Hin) in Hn.
  injection Hn as <-. rewrite (Hval _ Hin) in Hgt.
  unfold thresh_default in Hgt.
  by rewrite (F64_sub_self_within _ Hn1) in Hgt.
Qed.

(** Under the sampler's precondition a draw comes to its end.  The colour
    [Fore.RED] is needed for a mismatch only. *)
Lemma match_random_value_total a b w :
  Forall (fun d => 1 <= d) (da_shape a) ->
  da_shape b = da_shape a ->
  is_Some (w_Fore w !! "RED") \/ identical a b ->
  exists m w',
    _match_random_value a b thresh_default w = (Ok m, w') /\
    w_cursor w' = (w_cursor w + length (da_shape a))%nat /\
    w_Fore w' = w_Fore w.
Proof.
  intros Hpos Hshape Hred.
  destruct (random_index_loop_ok (da_shape a) [] w Hpos) as (idx & Hin & Heq).
  rewrite match_random_value_unfold.
  assert (Hinb : in_bounds idx (da_shape b)) by by rewrite Hshape.
  rewrite (bind_ok _ _ _ _ _ Heq).
  rewrite (bind_ok _ _ _ _ _ (values_getitem_in_bounds VarA a idx _ Hin)).
  rewrite (bind_ok _ _ _ _ _ (values_getitem_in_bounds VarB b idx _ Hinb)).
  unfold evaluate_values.
  destruct (F64.isnan (da_values a idx) || F64.isnan (da_values b idx))
    eqn:Hnan; [by eexists _, _ |].
  destruct (F64.gt _ thresh_default) eqn:Hgt; [| by eexists _, _].
  destruct Hred as [[red Hred] | [_ Hval]].
  - unfold bind, print, print_normal, print_normal_end, emit, Fore, ret.
    simpl. rewrite Hred. by eexists _, _.
  - exfalso. apply orb_false_elim in Hnan as [Hn1 _].
    rewrite (Hval _ Hin) in Hgt. unfold thresh_default in Hgt.
    by rewrite (F64_sub_self_within _ Hn1) in Hgt.
Qed.

Lemma draw_and_mark_total a b i k w :
  Forall (fun d => 1 <= d) (da_shape a) ->
  da_shape b = da_shape a ->
  is_Some (w_Fore w !! "RED") \/ identical a b ->
  exists k' w',
    draw_and_mark a b i k w = (Ok k', w') /\
    w_cursor w' = (w_cursor w + length (da_shape a))%nat /\
    w_Fore w' = w_Fore w.
Proof.
  intros Hpos Hshape Hred.
  destruct (match_random_value_total a b w Hpos Hshape Hred)
    as (m & w1 & Hm & Hcur & Hfore).
  unfold draw_and_mark. rewrite (bind_ok _ _ _ _ _ Hm).
  destruct m as [[|]|]; by eexists _, _.
Qed.

Lemma draw_and_mark_loop_total a b xs : forall k w,
  Forall (fun d => 1 <= d) (da_shape a) ->
  da_shape b = da_shape a ->
  is_Some (w_Fore w !! "RED") \/ identical a b ->
  exists k' w',
    for_loop xs (draw_and_mark a b) k w = (Ok k', w') /\
    w_cursor w' = (w_cursor w + length xs * length (da_shape a))%nat.
Proof.
  induction xs as [|x xs IH]; intros k w Hpos Hshape Hred.
  - exists k, w. split; [done |]. simpl. lia.
  - destruct (draw_and_mark_total a b x k w Hpos Hshape Hred)
      as (k1 & w1 & H1 & Hcur & Hfore).
    destruct (IH k1 w1 Hpos Hshape) as (k' & w' & H' & Hcur').
    { destruct Hred as [Hred | Hid]; [left; by rewrite Hfore | by right]. }
    exists k', w'. split.
    + simpl for_loop. by rewrite (bind_ok _ _ _ _ _ H1).
    + rewrite Hcur', Hcur. simpl. lia.
Qed.

Lemma new_events_app w w' tr : w_out w' = w_out w ++ tr -> new_events w w' = tr.
Proof. intros H. unfold new_events. by rewrite H, drop_app_length. Qed.

Lemma elements_loaded_app v tr1 tr2 :
  elements_loaded v (tr1 ++ tr2) =
  (elements_loaded v tr1 + elements_loaded v tr2)%nat.
Proof. unfold elements_loaded. by rewrite sum_list_with_app. Qed.

Lemma detail_events_no_load tr :
  Forall (fun e => detail_event e = true) tr ->
  forall v, elements_loaded v tr = 0%nat /\
            count_events (load_event v) tr = 0%nat.
Proof.
  induction 1 as [|e tr He _ IH]; intros v; [done |].
  destruct (IH v) as [IH1 IH2].
  change (e :: tr) with ([e] ++ tr).
  rewrite elements_loaded_app, count_events_app, IH1, IH2.
  destruct e; try discriminate; by destruct v.
Qed.

(** Closes goals that count the loads of an explicit trace. *)
Ltac load_tac :=
  try done;
  try (intros; unfold elements_loaded, count_events; simpl; (lia || done)).

(** The evaluations of [.values] in one call of [_match_random_value],
    whatever its outcome. *)
Lemma match_random_value_loads a b thresh w r w' :
  _match_random_value a b thresh w = (r, w') ->
  exists tr,
    w_out w' = w_out w ++ tr /\
    (count_events (load_event VarA) tr <= 1)%nat /\
    (count_events (load_event VarB) tr <= 1)%nat /\
    elements_loaded VarA tr
    = (count_events (load_event VarA) tr * size_of (da_shape a))%nat /\
    elements_loaded VarB tr
    = (count_events (load_event VarB) tr * size_of (da_shape b))%nat /\
    (forall m, r = Ok m ->
       count_events (load_event VarA) tr = 1%nat /\
       count_events (load_event VarB) tr = 1%nat).
Proof.
  rewrite match_random_value_unfold. intros H.
  apply bind_inv in H as [(idx & w1 & Hidx & H) | (e & Hidx & ->)].
  2:{ apply random_index_inv in Hidx as [Hout _].
      exists []. rewrite app_nil_r. repeat split; load_tac. }
  apply random_index_inv in Hidx as [Hout1 _].
  apply bind_inv in H as [(v1 & w2 & Ha & H) | (e & Ha & ->)].
  2:{ apply values_getitem_inv in Ha
        as [[-> _] | (idx' & _ & -> & Hok & _)].
      - exists [LoadValues VarA (size_of (da_shape a))].
        split; [simpl; by rewrite Hout1 |]. repeat split; load_tac.
      - eexists [LoadValues VarA (size_of (da_shape a)); ReadElems VarA idx' _].
        split; [simpl; by rewrite Hout1 |]. repeat split; load_tac. }
  apply values_getitem_inv in Ha as [[_ [e [=]]] | (ia & _ & -> & _ & _)].
  apply bind_inv in H as [(v2 & w3 & Hb & H) | (e & Hb & ->)].
  2:{ apply values_getitem_inv in Hb
        as [[-> _] | (idx' & _ & -> & Hok & _)].
      - eexists [LoadValues VarA (size_of (da_shape a)); ReadElems VarA ia _;
                 LoadValues VarB (size_of (da_shape b))].
        split; [simpl; by rewrite Hout1, <- !app_assoc |].
        repeat split; load_tac.
      - eexists [LoadValues VarA (size_of (da_shape a)); ReadElems VarA ia _;
                 LoadValues VarB (size_of (da_shape b)); ReadElems VarB idx' _].
        split; [simpl; by rewrite Hout1, <- !app_assoc |].
        repeat split; load_tac. }
  apply values_getitem_inv in Hb as [[_ [e [=]]] | (ib & _ & -> & _ & _)].
  apply evaluate_values_inv in H as [(_ & _ & _ & tr & Hout & Htr) _].
  pose proof (detail_events_no_load tr Htr) as Hno.
  destruct (Hno VarA) as [HA0 HA1]. destruct (Hno VarB) as [HB0 HB1].
  eexists ([LoadValues VarA (size_of (da_shape a)); ReadElems VarA ia _;
            LoadValues VarB (size_of (da_shape b)); ReadElems VarB ib _]
           ++ tr).
  rewrite !elements_loaded_app, !count_events_app, HA0, HA1, HB0, HB1.
  split; [rewrite Hout; simpl; by rewrite Hout1, <- !app_assoc |].
  repeat split; load_tac.
Qed.

Lemma marker_no_load c v :
  elements_loaded v [PrintNormal [Str c] ""] = 0%nat /\
  count_events (load_event v) [PrintNormal [Str c] ""] = 0%nat.
Proof. by destruct v. Qed.

Lemma draw_and_mark_loads a b i k w r w' :
  draw_and_mark a b i k w = (r, w') ->
  exists tr, w_out w' = w_out w ++ tr /\ loads_ok a b 1 r tr.
Proof.
  unfold draw_and_mark. intros H.
  apply bind_inv in H as [(m & w0 & Hm & H) | (e & Hm & ->)].
  - apply match_random_value_loads in Hm
      as (tr & Hout & HA & HB & HLA & HLB & Hok).
    destruct (Hok _ eq_refl) as [HA1 HB1].
    assert (Hmark : exists c, w_out w' = w_out w0 ++ [PrintNormal [Str c] ""]).
    { destruct m as [[|]|]; inversion H; subst; simpl; eauto. }
    destruct Hmark as (c & Hout').
    exists (tr ++ [PrintNormal [Str c] ""]).
    split; [by rewrite Hout', Hout, app_assoc |].
    unfold loads_ok.
    rewrite !elements_loaded_app, !count_events_app.
    destruct (marker_no_load c VarA) as [-> ->].
    destruct (marker_no_load c VarB) as [-> ->].
    rewrite !Nat.add_0_r. repeat split; lia.
  - apply match_random_value_loads in Hm
      as (tr & Hout & HA & HB & HLA & HLB & _).
    exists tr. split; [exact Hout |]. unfold loads_ok.
    repeat split; try done. all: intros; discriminate.
Qed.

Lemma draw_and_mark_loop_loads a b xs : forall k w r w',
  for_loop xs (draw_and_mark a b) k w = (r, w') ->
  exists tr, w_out w' = w_out w ++ tr /\ loads_ok a b (length xs) r tr.
Proof.
  induction xs as [|x xs IH]; intros k w r w' H.
  - inversion H; subst. exists []. rewrite app_nil_r. split; [done |].
    unfold loads_ok. repeat split; load_tac.
  - simpl for_loop in H.
    apply bind_inv in H as [(k1 & w1 & H1 & H) | (e & H1 & ->)].
    + apply draw_and_mark_loads in H1
        as (tr1 & Hout1 & HA1 & HB1 & HLA1 & HLB1 & Hok1).
      apply IH in H as (tr2 & Hout2 & HA2 & HB2 & HLA2 & HLB2 & Hok2).
      destruct (Hok1 _ eq_refl) as [EA EB].
      exists (tr1 ++ tr2). split; [by rewrite Hout2, Hout1, app_assoc |].
      unfold loads_ok.
      rewrite !elements_loaded_app, !count_events_app. simpl length.
      split; [lia |]. split; [lia |]. split; [lia |]. split; [lia |].
      intros k' Hk. destruct (Hok2 _ Hk). lia.
    + apply draw_and_mark_loads in H1
        as (tr1 & Hout1 & HA1 & HB1 & HLA1 & HLB1 & _).
      exists tr1. split; [exact Hout1 |]. unfold loads_ok. simpl length.
      split; [lia |]. split; [lia |]. split; [done |]. split; [done |].
      intros k' [=].
Qed.

(** C3, as the code has it: in a run of the sampling loop with [n] draws,
    however it ends, [.values] is evaluated at most [n] times on each
    variable, exactly [n] times when the run returns, and the subscripts
    select at most [n] scalar elements of [var_a], and of a [var_b] that has
    no more dimensions than [var_a], as one of the same shape.  But every
    evaluation of [.values] loads the whole array: the elements loaded of a
    variable are its size for each evaluation, whatever [n]. *)
Theorem C3_reads_bounded (a b : DataArray) (n : nat) (w : world) :
  exists tr,
    w_out (random_values_loop a b n w).2 = w_out w ++ tr /\
    (elements_selected VarA tr <= n)%nat /\
    ((length (da_shape b) <= length (da_shape a))%nat ->
     (elements_selected VarB tr <= n)%nat) /\
    (count_events (load_event VarA) tr <= n)%nat /\
    (count_events (load_event VarB) tr <= n)%nat /\
    elements_loaded VarA tr
    = (count_events (load_event VarA) tr * size_of (da_shape a))%nat /\
    elements_loaded VarB tr
    = (count_events (load_event VarB) tr * size_of (da_shape b))%nat /\
    (forall k, (random_values_loop a b n w).1 = Ok k ->
       elements_loaded VarA tr = (n * size_of (da_shape a))%nat /\
       elements_loaded VarB tr = (n * size_of (da_shape b))%nat).
Proof.
  destruct (random_values_loop a b n w) as [r w'] eqn:H.
  rewrite random_values_loop_unfold in H.
  pose proof (draw_and_mark_loop _ _ _ _ _ _ _ H) as (tr & Hout & HA & HB & _).
  pose proof (draw_and_mark_loop_loads _ _ _ _ _ _ _ H)
    as (tr' & Hout' & HCA & HCB & HLA & HLB & Hok).
  rewrite Hout in Hout'. apply app_inv_head in Hout' as <-.
  rewrite length_seq in HA, HB, HCA, HCB, Hok.
  exists tr. simpl.
  split; [exact Hout |]. split; [exact HA |]. split; [exact HB |].
  split; [exact HCA |]. split; [exact HCB |].
  split; [exact HLA |]. split; [exact HLB |].
  intros k Hk. destruct (Hok _ Hk) as [EA EB].
  by rewrite HLA, HLB, EA, EB.
Qed.

Lemma C3_witness :
  exists tr,
    w_out (random_values_loop Fixtures.grid Fixtures.grid_plus_one 3
             Fixtures.w0).2 = tr /\
    (elements_selected VarA tr <= 3)%nat /\
    (elements_selected VarB tr <= 3)%nat /\
    elements_loaded VarA tr = 18%nat /\ elements_loaded VarB tr = 18%nat.
Proof.
  destruct (C3_reads_bounded Fixtures.grid Fixtures.grid_plus_one 3
              Fixtures.w0) as (tr & Hout & HA & HB & _ & _ & _ & _ & Hok).
  exists tr. split; [exact Hout |]. split; [exact HA |].
  split; [apply HB; simpl; lia |].
  apply (Hok 3). vm_compute. reflexivity.
Defined.

(** C3, as claimed, fails: a single draw on an array of two rows of three
    columns loads all six elements of each variable. *)
Lemma C3_counterexample :
  elements_loaded VarA
    (new_events Fixtures.w0
       (random_values_loop Fixtures.grid Fixtures.grid 1 Fixtures.w0).2)
  = 6%nat /\
  elements_loaded VarB
    (new_events Fixtures.w0
       (random_values_loop Fixtures.grid Fixtures.grid 1 Fixtures.w0).2)
  = 6%nat /\
  ~ (6 <= 1)%nat.
Proof. split; [| split]; [vm_compute; reflexivity .. | lia]. Qed.

Lemma markers_app tr1 tr2 : markers (tr1 ++ tr2) = markers tr1 ++ markers tr2.
Proof. unfold markers. apply omap_app. Qed.

Lemma markers_none tr :
  count_events is_progress_marker tr = 0%nat -> markers tr = [].
Proof.
  unfold count_events, markers. induction tr as [|e tr IH]; [done |].
  rewrite filter_cons. destruct (decide (is_progress_marker e = true)) as [He|He].
  - discriminate.
  - intros H.
    assert (Hn : marker_printed e = None).
    { destruct e as [| t ? | | | | | | | |]; try done.
      destruct t as [|[s| | | | | | | |] [|? ?]]; try done.
      unfold marker_printed. by destruct (is_progress_marker _). }
    change (omap marker_printed (e :: tr))
      with (match marker_printed e with
            | Some y => y :: omap marker_printed tr
            | None => omap marker_printed tr
            end).
    rewrite Hn. by apply IH.
Qed.

Lemma mismatches_cons r rs :
  mismatches (r :: rs)
  = ((match r with Some false => 1 | _ => 0 end) + mismatches rs)%nat.
Proof. reflexivity. Qed.

(** One turn of the loop that came to its end: one call of
    [_match_random_value], then the marker of its outcome, and one more
    mismatch counted exactly when the outcome is [False]. *)
Lemma draw_and_mark_outcome a b i k w k' w' :
  draw_and_mark a b i k w = (Ok k', w') ->
  exists outcome w1,
    _match_random_value a b thresh_default w = (Ok outcome, w1) /\
    w' = logged w1 [PrintNormal [Str (marker_of outcome)] ""] /\
    k' = k + Z.of_nat (mismatches [outcome]).
Proof.
  unfold draw_and_mark. intros H.
  apply bind_inv in H as [(m & w1 & Hm & H) | (e & _ & [=])].
  exists m, w1. split; [exact Hm |].
  destruct m as [[|]|]; inversion H; subst; split; try reflexivity;
    unfold mismatches; simpl; lia.
Qed.

Lemma draw_and_mark_loop_draws a b xs : forall k w k' w',
  for_loop xs (draw_and_mark a b) k w = (Ok k', w') ->
  exists outcomes,
    draws a b w outcomes w' /\ length outcomes = length xs /\
    k' = k + Z.of_nat (mismatches outcomes).
Proof.
  induction xs as [|x xs IH]; intros k w k' w' H.
  - inversion H; subst. exists []. split; [constructor |].
    split; [done |]. unfold mismatches. simpl. lia.
  - simpl for_loop in H.
    apply bind_inv in H as [(k1 & w1 & H1 & H) | (e & _ & [=])].
    apply draw_and_mark_outcome in H1 as (r & w0 & Hr & -> & ->).
    apply IH in H as (rs & Hd & Hlen & ->).
    exists (r :: rs). split; [econstructor; eassumption |].
    split; [simpl; by rewrite Hlen |].
    rewrite mismatches_cons. unfold mismatches at 1. simpl. lia.
Qed.

(** The markers a sequence of draws printed are those of its outcomes, in
    the order of the draws. *)
Lemma draws_markers a b w outcomes w' :
  draws a b w outcomes w' ->
  exists tr, w_out w' = w_out w ++ tr /\ markers tr = map marker_of outcomes.
Proof.
  induction 1 as [w | w r w1 rs w' Hr _ (tr & Hout & Hm)].
  - exists []. by rewrite app_nil_r.
  - apply match_random_value_step in Hr as (tr1 & Hout1 & _ & _ & Hp & _).
    exists (tr1 ++ [PrintNormal [Str (marker_of r)] ""] ++ tr).
    split.
    + rewrite Hout. simpl. by rewrite Hout1, <- !app_assoc.
    + rewrite !markers_app, (markers_none _ Hp), Hm.
      by destruct r as [[|]|].
Qed.

(** C5, as the code has it: under the sampler's precondition (equal shapes,
    every extent at least 1) a run with [n] draws comes to its end after
    exactly [n] calls of [_match_random_value], each in the world the one
    before left and so on fresh entropy; after each call it prints the marker
    of the outcome of that call, "." for [True], "n" for [None], "x" for
    [False], and nothing else counts as a marker; and it accumulates one count
    only, the number of calls that returned [False]. *)
Theorem C5_draws_markers_mismatch_count (a b : DataArray) (n : nat)
    (w : world) :
  Forall (fun d => 1 <= d) (da_shape a) ->
  da_shape b = da_shape a ->
  is_Some (w_Fore w !! "RED") ->
  exists k w' outcomes,
    random_values_loop a b n w = (Ok k, w') /\
    draws a b w outcomes w' /\
    length outcomes = n /\
    w_cursor w' = (w_cursor w + n * length (da_shape a))%nat /\
    markers (new_events w w') = map marker_of outcomes /\
    count_events is_progress_marker (new_events w w') = n /\
    k = Z.of_nat (mismatches outcomes).
Proof.
  intros Hpos Hshape Hred.
  destruct (draw_and_mark_loop_total a b (seq 0 n) 0 w Hpos Hshape
              (or_introl Hred)) as (k & w' & H & Hcur).
  pose proof (draw_and_mark_loop_draws _ _ _ _ _ _ _ H)
    as (outcomes & Hd & Hlen & Hk).
  exists k, w', outcomes. rewrite random_values_loop_unfold.
  rewrite length_seq in Hcur, Hlen.
  split; [exact H |]. split; [exact Hd |]. split; [exact Hlen |].
  split; [exact Hcur |].
  destruct (draws_markers _ _ _ _ _ Hd) as (tr & Hout & Hm).
  rewrite (new_events_app _ _ _ Hout).
  split; [exact Hm |]. split; [| lia].
  apply draw_and_mark_loop in H as (tr' & Hout' & _ & _ & _ & _ & Hok).
  rewrite Hout in Hout'. apply app_inv_head in Hout' as <-.
  destruct (Hok _ eq_refl) as (_ & _ & Hp & _).
  by rewrite length_seq in Hp.
Qed.

Lemma C5_witness :
  exists k w' outcomes,
    random_values_loop Fixtures.grid Fixtures.grid_plus_one 4 Fixtures.w0
    = (Ok k, w') /\
    draws Fixtures.grid Fixtures.grid_plus_one Fixtures.w0 outcomes w' /\
    length outcomes = 4%nat /\
    w_cursor w' = 8%nat /\
    markers (new_events Fixtures.w0 w') = map marker_of outcomes /\
    k = Z.of_nat (mismatches outcomes).
Proof.
  destruct (C5_draws_markers_mismatch_count Fixtures.grid
              Fixtures.grid_plus_one 4 Fixtures.w0)
    as (k & w' & outcomes & H & Hd & Hlen & Hcur & Hm & _ & Hk).
  - repeat constructor; simpl; lia.
  - reflexivity.
  - vm_compute. eauto.
  - exists k, w', outcomes. by repeat split.
Defined.

(** C5, as claimed, fails: a single all-Match draw and a single all-NaN draw
    leave the same accumulated value, so the counts of Match and BothMissing
    outcomes are not aggregated. *)
Lemma C5_counterexample : ~ aggregates_each_kind.
Proof.
  intros (matches_of & missing_of & mismatches_of & Hagg).
  destruct (Hagg Fixtures.grid Fixtures.grid 1%nat Fixtures.w0 0
              (random_values_loop Fixtures.grid Fixtures.grid 1
                 Fixtures.w0).2 eq_refl) as (H1 & _ & _).
  destruct (Hagg Fixtures.grid_nan Fixtures.grid_nan 1%nat Fixtures.w0 0
              (random_values_loop Fixtures.grid_nan Fixtures.grid_nan 1
                 Fixtures.w0).2 eq_refl) as (H2 & _ & _).
  rewrite H1 in H2. vm_compute in H2. discriminate.
Qed.

(** C8: with the default tolerance 1e-6 and [var_b] a copy of [var_a] (same
    shape, same value at every index), a run of the sampling loop with any
    number of draws emits no "x" marker and can only end with zero
    mismatches; when every extent is at least 1 it does end, with zero. *)
Theorem C8_identical_no_mismatch (a b : DataArray) (n : nat) (w : world) :
  identical a b ->
  count_events (progress_marker "x")
    (new_events w (random_values_loop a b n w).2) = 0%nat /\
  (forall k, (random_values_loop a b n w).1 = Ok k -> k = 0) /\
  (Forall (fun d => 1 <= d) (da_shape a) ->
   (random_values_loop a b n w).1 = Ok 0).
Proof.
  intros Hid.
  assert (Hnever := identical_never_mismatch a b Hid).
  assert (Hgen : count_events (progress_marker "x")
            (new_events w (random_values_loop a b n w).2) = 0%nat /\
          (forall k, (random_values_loop a b n w).1 = Ok k -> k = 0)).
  { destruct (random_values_loop a b n w) as [r w'] eqn:H.
    rewrite random_values_loop_unfold in H.
    apply draw_and_mark_loop in H as (tr & Hout & _ & _ & _ & Hx & Hok).
    simpl. rewrite (new_events_app _ _ _ Hout).
    split; [by apply Hx |].
    intros k ->. destruct (Hok _ eq_refl) as (_ & _ & _ & ->).
    rewrite (Hx Hnever). reflexivity. }
  destruct Hgen as [Hx Hk]. split; [exact Hx |]. split; [exact Hk |].
  intros Hpos.
  destruct (draw_and_mark_loop_total a b (seq 0 n) 0 w Hpos (proj1 Hid)
              (or_intror Hid)) as (k & w' & H & _).
  rewrite random_values_loop_unfold in *. rewrite H in *. simpl in *.
  f_equal. by apply Hk.
Qed.

Lemma C8_witness :
  count_events (progress_marker "x")
    (new_events Fixtures.w0
       (random_values_loop Fixtures.grid Fixtures.grid 5 Fixtures.w0).2)
  = 0%nat /\
  (random_values_loop Fixtures.grid Fixtures.grid 5 Fixtures.w0).1 = Ok 0.
Proof.
  destruct (C8_identical_no_mismatch Fixtures.grid Fixtures.grid 5
              Fixtures.w0) as (Hx & _ & Hok).
  - split; [reflexivity | intros idx _; reflexivity].
  - split; [exact Hx |]. apply Hok. repeat constructor; simpl; lia.
Defined.

(** ** The stages of the orchestrator *)

Section Stages.

Context (fs : string -> option Dataset)
        (common_elements :
           list string -> list string -> list (nat * string * string)).

(** Everything the sampling stage and its handler emit is a sampling event. *)
Lemma respects_sampling_stage a b g v :
  respects sample_stage_event
    (try_except (sample_values_stage fs a b g v) (key_error_handler g v)).
Proof.
  apply respects_try_except.
  - unfold sample_values_stage, _print_sample_values,
      compare_multiple_random_values, random_values_loop,
      _match_random_value, random_index, values_getitem.
    respects_auto;
      first [ apply respects_xr_open_dataset | apply respects_xr_getitem ].
  - intros e k Hk. destruct e; inversion Hk; subst. respects_auto.
Qed.

Lemma without_group_event_excludes e :
  without_group_event e = true ->
  group_stage_event e = false /\ sample_stage_event e = false.
Proof.
  unfold without_group_event.
  destruct e as [t ?|t ?| | | | | | | |]; try done.
  destruct t as [|[c| | | | | | | |] [|[s| | | | | | | |] [|? ?]]]; try done.
  simpl. rewrite !orb_false_r, !orb_true_iff, !String.eqb_eq.
  intros [[->|[->| ->]]| ->]; done.
Qed.

Lemma without_variable_event_excludes g e :
  without_variable_event g e = true -> sample_stage_event e = false.
Proof.
  unfold without_variable_event.
  destruct e as [t ?|t ?| | | | | | | |]; try done.
  - destruct t as [|[c| | | | | | | |] [|[s| | | | | | | |] [|? ?]]]; try done.
    simpl. rewrite !orb_false_r, !orb_true_iff, !String.eqb_eq.
    intros [[->|[->| ->]]|[->| ->]]; done.
  - destruct t as [|[s| | | | | | | |] [|? ?]]; try done.
    simpl. by intros ->.
Qed.

Lemma respects_without_group a b g v show :
  truthy g = false ->
  respects without_group_event
    (run_through_comparisons fs common_elements a b g v show).
Proof.
  intros Hg. unfold run_through_comparisons. rewrite Hg. respects_auto.
  - eapply respects_mono; [| apply respects_root_stages].
    intros e He. unfold without_group_event. by rewrite He.
  - eapply respects_mono; [| apply respects_all_variables_stage].
    intros e He. unfold without_group_event. by rewrite He.
Qed.

Lemma respects_without_variable a b g v show :
  truthy g = true -> truthy v = false ->
  respects (without_variable_event (str_of g))
    (run_through_comparisons fs common_elements a b g v show).
Proof.
  intros Hg Hv. unfold run_through_comparisons. rewrite Hg, Hv.
  respects_auto.
  - eapply respects_mono; [| apply respects_root_stages].
    intros e He. unfold without_variable_event. by rewrite He.
  - eapply respects_mono; [| apply respects_group_listing_stage].
    intros e He. unfold without_variable_event. rewrite He. apply orb_true_r.
  - eapply respects_mono; [| apply respects_all_variables_stage].
    intros e He. unfold without_variable_event. by rewrite He.
Qed.

Lemma respects_new_events P {A} (m : M A) w :
  respects P m -> Forall (fun e => P e = true) (new_events w (m w).2).
Proof.
  intros Hm. destruct (m w) as [r w'] eqn:H.
  destruct (Hm _ _ _ H) as (_ & _ & _ & tr & Hout & Htr).
  simpl. by rewrite (new_events_app _ _ _ Hout).
Qed.

(** C7: the listing of a group runs only when a group name was supplied, the
    inspection and sampling of a variable only when a variable name was
    supplied too.  Without a group name the run is the root listings, the
    skip message and the all-variables stage, and nothing it emits belongs to
    the group listing or to the sampling; with a group name but no variable
    name it is the root listings, the group listing, the skip message and the
    all-variables stage, and nothing it emits belongs to the sampling. *)
Theorem C7_stages_gated (a b : string) (g v : option string) (show : bool)
    (w : world) :
  (truthy g = false ->
   run_through_comparisons fs common_elements a b g v show w =
   (root_stages fs a b ;;;
    (let* grey := Fore "LIGHTBLACK_EX" in
     print [Str grey;
            Str (nl +:+ "No variable group selected for comparison. Skipping..")]) ;;;
    all_variables_stage fs common_elements a b show) w /\
   Forall (fun e => group_stage_event e = false /\ sample_stage_event e = false)
     (new_events w
        (run_through_comparisons fs common_elements a b g v show w).2)) /\
  (truthy g = true -> truthy v = false ->
   run_through_comparisons fs common_elements a b g v show w =
   (root_stages fs a b ;;;
    (group_listing_stage fs a b (str_of g) ;;;
     let* grey := Fore "LIGHTBLACK_EX" in
     print [Str grey;
            Str (nl +:+ "No variable selected for comparison. Skipping..")]) ;;;
    all_variables_stage fs common_elements a b show) w /\
   Forall (fun e => sample_stage_event e = false)
     (new_events w
        (run_through_comparisons fs common_elements a b g v show w).2)).
Proof.
  split.
  - intros Hg. split.
    + unfold run_through_comparisons. rewrite Hg. reflexivity.
    + eapply Forall_impl.
      * apply respects_new_events. by apply respects_without_group.
      * intros e He. by apply without_group_event_excludes.
  - intros Hg Hv. split.
    + unfold run_through_comparisons. rewrite Hg, Hv. reflexivity.
    + eapply Forall_impl.
      * apply respects_new_events. by apply respects_without_variable.
      * intros e He. exact (without_variable_event_excludes _ _ He).
Qed.

End Stages.

Lemma C7_witness :
  Forall (fun e => group_stage_event e = false /\ sample_stage_event e = false)
    (new_events Fixtures.w0
       (run_through_comparisons Fixtures.fs0 Aligner.common_elements
          "a.nc" "b.nc" None (Some "temp") false Fixtures.w0).2) /\
  Forall (fun e => sample_stage_event e = false)
    (new_events Fixtures.w0
       (run_through_comparisons Fixtures.fs0 Aligner.common_elements
          "a.nc" "b.nc" (Some "g") None false Fixtures.w0).2).
Proof.
  split.
  - apply (proj1 (C7_stages_gated Fixtures.fs0 Aligner.common_elements
                    "a.nc" "b.nc" None (Some "temp") false Fixtures.w0)).
    reflexivity.
  - apply (proj2 (C7_stages_gated Fixtures.fs0 Aligner.common_elements
                    "a.nc" "b.nc" (Some "g") None false Fixtures.w0));
      reflexivity.
Defined.

(** ** Lookup failures *)

(** Opening a dataset and looking a name up in it leave the world alone, and
    give the same outcome in every world. *)
Lemma xr_open_dataset_world fs path group w r w' :
  xr_open_dataset fs path group w = (r, w') ->
  w' = w /\ forall w2, xr_open_dataset fs path group w2 = (r, w2).
Proof.
  unfold xr_open_dataset, Dataset_open, bind, ret, raise, lift.
  destruct (fs path); [| by intros [= <- <-]].
  destruct group as [g|]; by intros [= <- <-].
Qed.

Lemma xr_getitem_world ds name w r w' :
  xr_getitem ds name w = (r, w') ->
  w' = w /\ forall w2, xr_getitem ds name w2 = (r, w2).
Proof.
  unfold xr_getitem, ret, lift.
  destruct (getitem (xr_variables ds) name); by intros [= <- <-].
Qed.

(** Whatever [xr.open_dataset] raises is an [OSError]. *)
Lemma xr_open_dataset_raises fs path group w e w' :
  xr_open_dataset fs path group w = (Raise e, w') -> exists msg, e = OSError msg.
Proof.
  unfold xr_open_dataset, Dataset_open, bind, ret, raise, lift.
  destruct (fs path) as [ds|]; [| intros [= <- _]; eauto].
  destruct group as [g|]; [| discriminate].
  unfold nc4_require_group.
  destruct (_ || _); [discriminate |].
  destruct (group_path g) as [|key more]; [discriminate |].
  destruct (getitem _ key); [| intros [= <- _]; eauto].
  destruct more; [discriminate | intros [= <- _]; eauto].
Qed.

(** The name of a group is read as a path: slashes around it do not
    count, and a path of two components finds nothing in a file whose groups
    hold no groups. *)
Lemma group_name_is_a_path :
  group_path "/g" = ["g"] /\ group_path "g/" = ["g"] /\
  group_path "g/h" = ["g"; "h"] /\
  (xr_open_dataset Fixtures.fs0 "a.nc" (Some "/g") Fixtures.w0).1
  = (xr_open_dataset Fixtures.fs0 "a.nc" (Some "g") Fixtures.w0).1 /\
  (xr_open_dataset Fixtures.fs0 "a.nc" (Some "g/h") Fixtures.w0).1
  = Raise (OSError "group not found: h").
Proof. repeat split; reflexivity. Qed.

(** A name that is neither a variable nor a dimension of the dataset, and
    holds no dot, is the one xarray raises [KeyError] for. *)
Lemma xr_getitem_key_error ds name e w :
  getitem (xr_variables ds) name = Raise e ->
  name ∉ keys (xr_dims ds) -> split_dot name = None ->
  xr_getitem ds name w = (Raise (KeyError name), w).
Proof.
  intros Hvar Hdim Hdot. unfold xr_getitem, lift, get_virtual_variable.
  rewrite Hvar, Hdot.
  destruct (getitem (xr_dims ds) name) as [n|] eqn:Hn; [| done].
  exfalso. apply Hdim. clear -Hn.
  induction (xr_dims ds) as [|[k z] d IH]; [discriminate |].
  simpl in Hn. unfold keys. simpl.
  destruct (String.eqb k name) eqn:E.
  - apply String.eqb_eq in E as ->. apply list_elem_of_here.
  - apply list_elem_of_further, IH, Hn.
Qed.

(** The name of a dimension that has no variable of its name is no lookup
    failure: xarray answers with the index of the dimension, which has one
    dimension. *)
Lemma xr_getitem_dimension ds name e n w :
  getitem (xr_variables ds) name = Raise e ->
  getitem (xr_dims ds) name = Ok n ->
  xr_getitem ds name w = (Ok (index_variable n), w).
Proof.
  intros Hvar Hdim. unfold xr_getitem, lift, get_virtual_variable.
  by rewrite Hvar, Hdim.
Qed.

Section Recovery.

Context (fs : string -> option Dataset)
        (common_elements :
           list string -> list string -> list (nat * string * string)).

(** C4, as the code has it: a [KeyError] raised while the selected variable
    is inspected or sampled, once the root listings and the listing of the
    selected group have completed, is caught, reported with the names of the
    variable and of the group and with the traceback, and the run goes on
    with the all-variables stage; when the lookup of the name in the group of
    the first file raises [KeyError], the sampling stage raises it right
    after its title.  A group that does not open is not recovered:
    [_print_vars] reports the file and raises the [OSError] again, outside
    the [try], so that the run ends there, after the title of the listing and
    the complaint; whatever the listing of the group raises ends the run. *)
Theorem C4_missing_variable_recovered (a b g v : string) (show : bool)
    (w : world) :
  truthy (Some g) = true -> truthy (Some v) = true ->
  (forall w1 w2 key bright red,
     (root_stages fs a b ;;; group_listing_stage fs a b g) w = (Ok tt, w1) ->
     sample_values_stage fs a b g v w1 = (Raise (KeyError key), w2) ->
     w_Style w2 !! "BRIGHT" = Some bright ->
     w_Fore w2 !! "RED" = Some red ->
     run_through_comparisons fs common_elements a b (Some g) (Some v) show w
     = all_variables_stage fs common_elements a b show
         (logged w2
            [Print [Str bright; Str red;
                    Str (nl +:+ "Error when comparing values for variable <"
                         +:+ v +:+ "> in group <" +:+ g +:+ ">.")] nl;
             Print [Traceback (KeyError key)] nl;
             Print [Str nl] nl])) /\
  (forall w1 grp key blue,
     xr_open_dataset fs a (Some g) w1 = (Ok grp, w1) ->
     xr_getitem grp v w1 = (Raise (KeyError key), w1) ->
     w_Fore w1 !! "LIGHTBLUE_EX" = Some blue ->
     sample_values_stage fs a b g v w1
     = (Raise (KeyError key),
        logged w1
          [Print [Str blue;
                  Str (nl +:+ "Sample values within specified variable <"
                       +:+ v +:+ ">:")] nl])) /\
  (forall w1 e blue,
     root_stages fs a b w = (Ok tt, w1) ->
     xr_open_dataset fs a (Some g) w1 = (Raise e, w1) ->
     w_Fore w1 !! "LIGHTBLUE_EX" = Some blue ->
     run_through_comparisons fs common_elements a b (Some g) (Some v) show w
     = (Raise e,
        logged w1
          [Print [Str blue;
                  Str (nl +:+ "Variables within specified group <"
                       +:+ g +:+ ">:")] nl;
           PrintNormal
             [Str (nl +:+ "Error occurred when attempting to open group within <"
                   +:+ a +:+ ">." +:+ nl)] nl])) /\
  (forall e w1,
     (root_stages fs a b ;;; group_listing_stage fs a b g) w = (Raise e, w1) ->
     run_through_comparisons fs common_elements a b (Some g) (Some v) show w
     = (Raise e, w1)).
Proof.
  intros Hg Hv. split; [| split; [| split]].
  - intros w1 w2 key bright red H Hs Hbright Hred.
    unfold run_through_comparisons. rewrite Hg, Hv. simpl str_of.
    apply bind_inv in H as [([] & w0 & Hr & Hgl) | (e' & _ & [=])].
    rewrite (bind_ok _ _ _ _ _ Hr).
    erewrite (bind_ok (bind _ _)); [reflexivity |].
    rewrite (bind_ok _ _ _ _ _ Hgl).
    erewrite try_except_raise; [| exact Hs | reflexivity].
    unfold bind, Style, Fore, print, emit, ret, logged. simpl.
    rewrite Hbright, Hred. simpl. by rewrite <- !app_assoc.
  - intros w1 grp key blue Hopen Hmiss Hblue.
    apply xr_open_dataset_world in Hopen as [_ Hopen].
    apply xr_getitem_world in Hmiss as [_ Hmiss].
    unfold sample_values_stage.
    erewrite bind_ok; [| unfold Fore; by rewrite Hblue].
    unfold print at 1. rewrite bind_emit.
    apply bind_raise. unfold _print_sample_values.
    rewrite (bind_ok _ _ _ _ _ (Hopen _)).
    apply bind_raise. apply Hmiss.
  - intros w1 e blue Hr Hopen Hblue.
    destruct (xr_open_dataset_raises _ _ _ _ _ _ Hopen) as [msg ->].
    apply xr_open_dataset_world in Hopen as [_ Hopen].
    unfold run_through_comparisons. rewrite Hg.
    rewrite (bind_ok _ _ _ _ _ Hr).
    apply bind_raise. apply bind_raise. simpl str_of.
    unfold group_listing_stage.
    erewrite bind_ok; [| unfold Fore; by rewrite Hblue].
    unfold print at 1. rewrite bind_emit.
    apply bind_raise. unfold _print_vars. apply bind_raise.
    unfold try_except. rewrite Hopen.
    unfold bind, print_normal, emit, raise, logged. simpl.
    by rewrite <- app_assoc.
  - intros e w1 H. unfold run_through_comparisons. rewrite Hg.
    apply bind_inv in H as [(u & w0 & Hr & Hgl) | (e' & Hr & [= <-])].
    + rewrite (bind_ok _ _ _ _ _ Hr).
      apply bind_raise. apply bind_raise. exact Hgl.
    + by apply bind_raise.
Qed.

End Recovery.

Lemma C4_witness :
  let w1 := ((root_stages Fixtures.fs0 "a.nc" "b.nc" ;;;
              group_listing_stage Fixtures.fs0 "a.nc" "b.nc" "g")
               Fixtures.w0).2 in
  let w2 := (sample_values_stage Fixtures.fs0 "a.nc" "b.nc" "g" "wind" w1).2 in
  run_through_comparisons Fixtures.fs0 Aligner.common_elements
    "a.nc" "b.nc" (Some "g") (Some "wind") false Fixtures.w0
  = all_variables_stage Fixtures.fs0 Aligner.common_elements "a.nc" "b.nc"
      false
      (logged w2
         [Print [Str (Fixtures.esc "1"); Str (Fixtures.esc "31");
                 Str (nl +:+ "Error when comparing values for variable <"
                      +:+ "wind" +:+ "> in group <" +:+ "g" +:+ ">.")] nl;
          Print [Traceback (KeyError "wind")] nl;
          Print [Str nl] nl]).
Proof.
  intros w1 w2.
  apply (proj1 (C4_missing_variable_recovered Fixtures.fs0
                  Aligner.common_elements "a.nc" "b.nc" "g" "wind" false
                  Fixtures.w0 eq_refl eq_refl) w1);
    vm_compute; reflexivity.
Defined.

(** C4, as claimed, fails for a group that does not exist: [_print_vars]
    reports the file and raises the [OSError] again, outside the [try], and
    the run ends before the all-variables stage. *)
Lemma C4_counterexample :
  getitem (ds_groups Fixtures.file_a) "nogroup" = Raise (KeyError "nogroup") /\
  (run_through_comparisons Fixtures.fs0 Aligner.common_elements
     "a.nc" "b.nc" (Some "nogroup") (Some "temp") false Fixtures.w0).1
  = Raise (OSError "group not found: nogroup") /\
  reaches_all_variables
    (new_events Fixtures.w0
       (run_through_comparisons Fixtures.fs0 Aligner.common_elements
          "a.nc" "b.nc" (Some "nogroup") (Some "temp") false Fixtures.w0).2)
  = false.
Proof. repeat split; vm_compute; reflexivity. Qed.

(** A name that no variable of the group bears is no lookup failure when it
    is the name of a dimension: xarray answers with the index of the
    dimension, [values[0, :]] raises [IndexError] on its single dimension,
    and the [try] does not recover from that. *)
Lemma dimension_name_not_recovered :
  getitem [("temp", Fixtures.var_of Fixtures.grid);
           ("hum", Fixtures.var_of Fixtures.grid)] "lat"
  = Raise (KeyError "lat") /\
  (run_through_comparisons Fixtures.fs0 Aligner.common_elements
     "a.nc" "b.nc" (Some "g") (Some "lat") false Fixtures.w0).1
  = Raise (IndexError "too many indices for array") /\
  reaches_all_variables
    (new_events Fixtures.w0
       (run_through_comparisons Fixtures.fs0 Aligner.common_elements
          "a.nc" "b.nc" (Some "g") (Some "lat") false Fixtures.w0).2)
  = false.
Proof. repeat split; vm_compute; reflexivity. Qed.

(** ** The names handed to the aligner *)

Section Listing.

Context (common_elements :
           list string -> list string -> list (nat * string * string)).

Lemma sorted_Sorted l : Sorted String.le (sorted l).
Proof. apply Sorted_merge_sort. apply _. Qed.

(** [_print_vars] does sort: what it returns, and hands to [lists_diff], is
    sorted. *)
Lemma print_vars_sorted fs path g w l w' :
  _print_vars fs path g w = (Ok l, w') -> Sorted String.le l.
Proof.
  unfold _print_vars. intros H.
  apply bind_inv in H as [(grp & w1 & _ & H) | (e & _ & [=])].
  apply bind_inv in H as [(u & w2 & _ & H) | (e & _ & [=])].
  injection H as <- _. apply sorted_Sorted.
Qed.

Lemma respects_extends P {A} (m : M A) w :
  respects P m -> exists tr, w_out (m w).2 = w_out w ++ tr.
Proof.
  intros Hm. destruct (m w) as [r w'] eqn:H.
  destruct (Hm _ _ _ H) as (_ & _ & _ & tr & Hout & _). by exists tr.
Qed.

(** The first call to the aligner in [compare_two_nc_files] receives the
    names of the root variables of each file as the dictionaries hold
    them. *)
Lemma compare_two_nc_files_root_call fs a b show w dsA dsB :
  fs a = Some dsA -> fs b = Some dsB ->
  exists tr,
    new_events w (compare_two_nc_files fs common_elements a b show w).2 =
    [SideBySide [Str " "] [Str "File A"] [Str "File B"] None None;
     SideBySide [Str "-"] [Str "-"] [Str "-"] (Some true) None;
     SideBySide [Str "num variables in root group:"]
       [Num (Z.of_nat (length (ds_variables dsA)))]
       [Num (Z.of_nat (length (ds_variables dsB)))] None None;
     CommonElements (keys (ds_variables dsA)) (keys (ds_variables dsB))]
    ++ tr.
Proof.
  intros Ha Hb.
  unfold compare_two_nc_files, side_by_side.
  rewrite bind_emit.
  unfold Dataset_open at 1. rewrite Ha, bind_ret.
  unfold Dataset_open at 1. rewrite Hb, bind_ret.
  rewrite !bind_emit.
  unfold call_common_elements at 1. rewrite bind_assoc, bind_emit, bind_ret.
  rewrite !logged_logged. simpl app.
  match goal with
  | |- context [new_events _ (?m ?w1).2] =>
      destruct (respects_extends report_event m w1) as [tr Htr]
  end.
  { unfold side_by_side, call_common_elements.
    respects_auto; apply respects_print_var_properties. }
  exists tr. unfold new_events. rewrite Htr. simpl w_out.
  rewrite <- app_assoc, drop_app_length. reflexivity.
Qed.

(** C6 at a failing input: the first file holds the root variables "b" then
    "a"; whatever the aligner, its first call receives them in that order,
    which is not sorted. *)
Theorem C6_root_variables_not_sorted :
  exists tr,
    new_events Fixtures.w0
      (compare_two_nc_files Fixtures.fs0 common_elements "a.nc" "b.nc" false
         Fixtures.w0).2 =
    [SideBySide [Str " "] [Str "File A"] [Str "File B"] None None;
     SideBySide [Str "-"] [Str "-"] [Str "-"] (Some true) None;
     SideBySide [Str "num variables in root group:"] [Num 2] [Num 2] None None;
     CommonElements ["b"; "a"] ["a"; "b"]]
    ++ tr /\
    ~ Sorted String.le ["b"; "a"].
Proof.
  destruct (compare_two_nc_files_root_call Fixtures.fs0 "a.nc" "b.nc" false
              Fixtures.w0 Fixtures.file_a Fixtures.file_b eq_refl eq_refl)
    as [tr Htr].
  exists tr. split; [exact Htr |].
  intros HS. inversion HS as [|? ? _ Hhd]; subst.
  inversion Hhd as [|? ? Hle]; subst. vm_compute in Hle. exact Hle.
Qed.

End Listing.

(** ** Colours *)

Lemma blank_fold_lookup (l : list (string * string)) :
  forall (m : gmap string string) k,
    foldl (fun acc kv => <[kv.1 := ""]> acc) m l !! k =
    if decide (k ∈ l.*1) then Some "" else m !! k.
Proof.
  induction l as [|[k0 v0] l IH]; intros m k.
  - rewrite fmap_nil.
    destruct (decide (k ∈ [])) as [Hin|_]; [by apply elem_of_nil in Hin |].
    reflexivity.
  - rewrite fmap_cons. cbn [foldl fst]. rewrite IH.
    destruct (decide (k ∈ l.*1)) as [Hin|Hnin];
      destruct (decide (k ∈ k0 :: l.*1)) as [Hin'|Hnin']; try done.
    + exfalso. apply Hnin'. by apply list_elem_of_further.
    + apply elem_of_cons in Hin' as [->|?]; [| done].
      apply lookup_insert_eq.
    + apply lookup_insert_ne. intros ->. apply Hnin'. apply list_elem_of_here.
Qed.

Lemma blank_fold_items (m : gmap string string) :
  foldl (fun acc kv => <[kv.1 := ""]> acc) m (map_to_list m) = blanked m.
Proof.
  apply map_eq. intros k. rewrite blank_fold_lookup. unfold blanked.
  rewrite lookup_fmap.
  destruct (m !! k) as [v|] eqn:Hk; simpl.
  - rewrite decide_True; [done |].
    apply list_elem_of_fmap. exists (k, v). split; [done |].
    by apply elem_of_map_to_list.
  - rewrite decide_False; [done |].
    intros ([k' v'] & -> & Hin)%list_elem_of_fmap.
    apply elem_of_map_to_list in Hin. simpl in Hk. congruence.
Qed.

Lemma Fore_blank_loop (l : list (string * string)) : forall w,
  for_loop l (fun '(k, v) _ => Fore_setitem k "") tt w =
  (Ok tt,
   World (w_entropy w) (w_cursor w)
     (foldl (fun acc kv => <[kv.1 := ""]> acc) (w_Fore w) l)
     (w_Style w) (w_out w)).
Proof.
  induction l as [|[k v] l IH]; intros w; simpl.
  - by destruct w.
  - unfold bind, Fore_setitem. by rewrite IH.
Qed.

Lemma Style_blank_loop (l : list (string * string)) : forall w,
  for_loop l (fun '(k, v) _ => Style_setitem k "") tt w =
  (Ok tt,
   World (w_entropy w) (w_cursor w) (w_Fore w)
     (foldl (fun acc kv => <[kv.1 := ""]> acc) (w_Style w) l)
     (w_out w)).
Proof.
  induction l as [|[k v] l IH]; intros w; simpl.
  - by destruct w.
  - unfold bind, Style_setitem. by rewrite IH.
Qed.

Lemma disable_colors_spec w :
  disable_colors w =
  (Ok tt,
   World (w_entropy w) (w_cursor w) (blanked (w_Fore w)) (blanked (w_Style w))
     (w_out w)).
Proof.
  unfold disable_colors, bind, Fore_items, Style_items.
  rewrite Fore_blank_loop, Style_blank_loop. simpl.
  by rewrite !blank_fold_items.
Qed.

Section Colours.

Context (fs : string -> option Dataset)
        (common_elements :
           list string -> list string -> list (nat * string * string))
        (make_valid_path : string -> result string).

Lemma compare_unfold a b g v no_color show :
  compare fs common_elements make_valid_path a b g v no_color show =
  (let* nc_a := lift (make_valid_path a) in
   let* nc_b := lift (make_valid_path b) in
   print [Str "File A: "; Str nc_a] ;;;
   print [Str "File B: "; Str nc_b] ;;;
   (if no_color then disable_colors else colorama_init true) ;;;
   run_through_comparisons fs common_elements nc_a nc_b g v show ;;;
   print_normal [Str (nl +:+ "Done.")]).
Proof. reflexivity. Qed.

(** What follows the colour set-up in [compare] leaves both namespaces as
    it finds them. *)
Lemma respects_after_colours a b g v show :
  respects any_event
    (run_through_comparisons fs common_elements a b g v show ;;;
     print_normal [Str (nl +:+ "Done.")]).
Proof.
  apply respects_bind; [apply respects_run_through_comparisons |].
  intros _. by apply respects_emit.
Qed.

(** C10: with [no_color] true, and both paths valid, [compare] overwrites
    every attribute of [Fore] and of [Style] with the empty string, and they
    are still so when the run ends, however it ends: nothing restores them;
    with [no_color] false both namespaces end as they started. *)
Theorem C10_no_color_blanks_namespaces (a b : string)
    (g v : option string) (show : bool) (w : world) :
  (forall nc_a nc_b,
     make_valid_path a = Ok nc_a -> make_valid_path b = Ok nc_b ->
     w_Fore (compare fs common_elements make_valid_path a b g v true show
               w).2 = blanked (w_Fore w) /\
     w_Style (compare fs common_elements make_valid_path a b g v true show
                w).2 = blanked (w_Style w)) /\
  (w_Fore (compare fs common_elements make_valid_path a b g v false show
             w).2 = w_Fore w /\
   w_Style (compare fs common_elements make_valid_path a b g v false show
              w).2 = w_Style w) /\
  (forall k s, blanked (w_Fore w) !! k = Some s -> s = "") /\
  (forall k, is_Some (blanked (w_Fore w) !! k) <-> is_Some (w_Fore w !! k)).
Proof.
  split; [| split; [| split]].
  - intros nc_a nc_b Ha Hb.
    destruct (compare _ _ _ a b g v true show w) as [r w'] eqn:Hc.
    rewrite compare_unfold in Hc.
    unfold bind at 1 in Hc. unfold lift at 1 in Hc. rewrite Ha in Hc.
    unfold bind at 1 in Hc. unfold lift at 1 in Hc. rewrite Hb in Hc.
    unfold print in Hc. rewrite !bind_emit in Hc.
    unfold bind at 1 in Hc. rewrite disable_colors_spec in Hc.
    apply respects_after_colours in Hc as (_ & HF & HS & _).
    simpl in *. by rewrite HF, HS.
  - destruct (compare _ _ _ a b g v false show w) as [r w'] eqn:Hc.
    rewrite compare_unfold in Hc.
    unfold bind at 1 in Hc. unfold lift at 1 in Hc.
    destruct (make_valid_path a) as [nc_a|e]; [| by injection Hc as _ <-].
    unfold bind at 1 in Hc. unfold lift at 1 in Hc.
    destruct (make_valid_path b) as [nc_b|e]; [| by injection Hc as _ <-].
    unfold print, colorama_init in Hc. rewrite !bind_emit in Hc.
    apply respects_after_colours in Hc as (_ & HF & HS & _).
    simpl in *. by rewrite HF, HS.
  - intros k s. unfold blanked. rewrite lookup_fmap.
    destruct (w_Fore w !! k); simpl; congruence.
  - intros k. unfold blanked. rewrite lookup_fmap.
    destruct (w_Fore w !! k); simpl; split; intros [? ?]; eauto; done.
Qed.

End Colours.

Lemma C10_witness :
  w_Fore (compare Fixtures.fs0 Aligner.common_elements Fixtures.valid_path0
            "a.nc" "b.nc" (Some "g") (Some "temp") true false Fixtures.w0).2
  = blanked Fixtures.Fore0 /\
  w_Style (compare Fixtures.fs0 Aligner.common_elements Fixtures.valid_path0
             "a.nc" "b.nc" (Some "g") (Some "temp") true false Fixtures.w0).2
  = blanked Fixtures.Style0.
Proof.
  apply (proj1 (C10_no_color_blanks_namespaces Fixtures.fs0
                  Aligner.common_elements Fixtures.valid_path0
                  "a.nc" "b.nc" (Some "g") (Some "temp") false Fixtures.w0)
           "a.nc" "b.nc");
    vm_compute; reflexivity.
Defined.

(** * Further properties *)

(** ** The verdict does not depend on the order of the operands *)

Lemma SFabs_binary_round_aux sx sy mx ex lx :
  SFabs (binary_round_aux F64.prec F64.emax sx mx ex lx) =
  SFabs (binary_round_aux F64.prec F64.emax sy mx ex lx).
Proof.
  unfold binary_round_aux.
  destruct (shr_fexp F64.prec F64.emax mx ex lx) as [mrs' e'].
  destruct (shr_fexp F64.prec F64.emax _ e' loc_Exact) as [mrs'' e''].
  destruct (shr_m mrs''); try reflexivity.
  destruct (e'' <=? F64.emax - F64.prec); reflexivity.
Qed.

Lemma SFabs_binary_normalize_opp m e :
  SFabs (binary_normalize F64.prec F64.emax (- m) e false) =
  SFabs (binary_normalize F64.prec F64.emax m e false).
Proof.
  destruct m as [|p|p]; simpl; try reflexivity; unfold binary_round;
    destruct (shl_align p e _) as [mz ez]; apply SFabs_binary_round_aux.
Qed.

(** [|x - y| = |y - x|], bit for bit, NaN and infinities included. *)
Lemma F64_abs_sub_sym (x y : float64) :
  F64.abs (F64.sub x y) = F64.abs (F64.sub y x).
Proof.
  unfold F64.abs, F64.sub.
  destruct x as [sx|sx| |sx mx ex], y as [sy|sy| |sy my ey];
    try reflexivity; try (destruct sx, sy; reflexivity).
  unfold SFsub. rewrite (Z.min_comm ey ex).
  rewrite <- SFabs_binary_normalize_opp. f_equal. f_equal. lia.
Qed.

Lemma same_state_refl w : same_state w w.
Proof. by repeat split. Qed.

Lemma random_index_loop_same shape : forall acc w w',
  same_state w w' ->
  (for_loop shape
     (fun d rand_index =>
        let* i := randint 0 (d - 1) in ret (rand_index ++ [i])) acc w).1 =
  (for_loop shape
     (fun d rand_index =>
        let* i := randint 0 (d - 1) in ret (rand_index ++ [i])) acc w').1 /\
  same_state
    (for_loop shape
       (fun d rand_index =>
          let* i := randint 0 (d - 1) in ret (rand_index ++ [i])) acc w).2
    (for_loop shape
       (fun d rand_index =>
          let* i := randint 0 (d - 1) in ret (rand_index ++ [i])) acc w').2.
Proof.
  induction shape as [|d shape IH]; intros acc w w' Hs.
  - by split.
  - destruct Hs as (He & Hc & Hf & Hst).
    simpl for_loop. destruct (Z.le_gt_cases d 0) as [Hle|Hgt].
    + destruct (randint_empty 0 (d - 1) w ltac:(lia)) as [msg Hr].
      destruct (randint_empty 0 (d - 1) w' ltac:(lia)) as [msg' Hr'].
      assert (msg' = msg) as ->.
      { unfold randint in Hr, Hr'.
        destruct (d - 1 - 0 + 1 <=? 0); congruence. }
      erewrite !bind_raise;
        [| erewrite bind_raise; [reflexivity | exact Hr']
         | erewrite bind_raise; [reflexivity | exact Hr]].
      by repeat split.
    + erewrite (bind_ok _ _ w);
        [| erewrite bind_ok; [reflexivity |]; apply randint_ok; lia].
      erewrite (bind_ok _ _ w');
        [| erewrite bind_ok; [reflexivity |]; apply randint_ok; lia].
      rewrite He, Hc. apply IH. unfold advance.
      repeat split; simpl; congruence.
Qed.

Lemma evaluate_values_swap a b idx v1 v2 thresh w w' :
  same_state w w' ->
  (evaluate_values a idx v1 v2 thresh w).1 =
  (evaluate_values b idx v2 v1 thresh w').1 /\
  same_state (evaluate_values a idx v1 v2 thresh w).2
    (evaluate_values b idx v2 v1 thresh w').2.
Proof.
  intros (He & Hc & Hf & Hst). unfold evaluate_values.
  rewrite (orb_comm (F64.isnan v2)), (F64_abs_sub_sym v1 v2).
  destruct (F64.isnan v1 || F64.isnan v2); [by repeat split |].
  destruct (F64.gt _ thresh); [| by repeat split].
  unfold bind, print, print_normal, print_normal_end, emit, Fore, ret.
  simpl. rewrite Hf. destruct (w_Fore w !! "RED"); by repeat split.
Qed.

Lemma match_random_value_swap a b thresh w w' :
  da_shape b = da_shape a -> same_state w w' ->
  (_match_random_value a b thresh w).1 = (_match_random_value b a thresh w').1 /\
  same_state (_match_random_value a b thresh w).2
    (_match_random_value b a thresh w').2.
Proof.
  intros Hshape Hs. rewrite !match_random_value_unfold, Hshape.
  destruct (random_index_loop_same (da_shape a) [] w w' Hs) as [Hr Hs1].
  fold (random_index (da_shape a)) in Hr, Hs1.
  destruct (random_index (da_shape a) w) as [[idx|e] w1] eqn:H1;
    destruct (random_index (da_shape a) w') as [[idx'|e'] w1'] eqn:H1';
    simpl in Hr; try discriminate.
  - injection Hr as <-.
    rewrite (bind_ok _ _ _ _ _ H1), (bind_ok _ _ _ _ _ H1').
    apply random_index_inv in H1 as [_ H1].
    destruct (H1 _ eq_refl) as [Hin _].
    assert (Hinb : in_bounds idx (da_shape b)) by by rewrite Hshape.
    assert (Hgo : forall (x y : DataArray) W,
               in_bounds idx (da_shape x) -> in_bounds idx (da_shape y) ->
               (let* v1 := values_getitem VarA x idx in
                let* v2 := values_getitem VarB y idx in
                evaluate_values x idx v1 v2 thresh) W =
               evaluate_values x idx (da_values x idx) (da_values y idx) thresh
                 (logged W [LoadValues VarA (size_of (da_shape x));
                            ReadElems VarA idx 1;
                            LoadValues VarB (size_of (da_shape y));
                            ReadElems VarB idx 1])).
    { intros x y W Hx Hy.
      rewrite (bind_ok _ _ _ _ _ (values_getitem_in_bounds VarA x idx _ Hx)).
      rewrite (bind_ok _ _ _ _ _ (values_getitem_in_bounds VarB y idx _ Hy)).
      by rewrite logged_logged. }
    rewrite !Hgo by done.
    apply evaluate_values_swap. simpl in Hs1.
    destruct Hs1 as (? & ? & ? & ?). by repeat split.
  - injection Hr as <-.
    rewrite (bind_raise _ _ _ _ _ H1), (bind_raise _ _ _ _ _ H1'). by split.
Qed.

Lemma draw_and_mark_swap a b i k w w' :
  da_shape b = da_shape a -> same_state w w' ->
  (draw_and_mark a b i k w).1 = (draw_and_mark b a i k w').1 /\
  same_state (draw_and_mark a b i k w).2 (draw_and_mark b a i k w').2.
Proof.
  intros Hshape Hs.
  destruct (match_random_value_swap a b thresh_default w w' Hshape Hs)
    as [Hr Hs1].
  unfold draw_and_mark, bind.
  destruct (_match_random_value a b thresh_default w) as [[m|e] w1];
    destruct (_match_random_value b a thresh_default w') as [[m'|e'] w1'];
    simpl in Hr; try discriminate.
  - injection Hr as <-. destruct Hs1 as (? & ? & ? & ?).
    destruct m as [[|]|]; by repeat split.
  - injection Hr as <-. by split.
Qed.

Lemma draw_and_mark_loop_swap a b xs : forall k w w',
  da_shape b = da_shape a -> same_state w w' ->
  (for_loop xs (draw_and_mark a b) k w).1 =
  (for_loop xs (draw_and_mark b a) k w').1.
Proof.
  induction xs as [|x xs IH]; intros k w w' Hshape Hs; [done |].
  destruct (draw_and_mark_swap a b x k w w' Hshape Hs) as [Hr Hs1].
  simpl for_loop. unfold bind.
  destruct (draw_and_mark a b x k w) as [[k1|e] w1];
    destruct (draw_and_mark b a x k w') as [[k1'|e'] w1'];
    simpl in Hr; try discriminate.
  - injection Hr as <-. by apply IH.
  - by injection Hr as <-.
Qed.

(** X1: for two variables of the same shape, the outcome of the sampling
    loop, the number of mismatches or the exception that ended it, is the
    same whichever of the two is given first. *)
Theorem X1_mismatch_count_symmetric (a b : DataArray) (n : nat) (w : world) :
  da_shape b = da_shape a ->
  (random_values_loop a b n w).1 = (random_values_loop b a n w).1.
Proof.
  intros Hshape. rewrite !random_values_loop_unfold.
  apply draw_and_mark_loop_swap; [done | apply same_state_refl].
Qed.

Lemma X1_witness :
  (random_values_loop Fixtures.grid Fixtures.grid_plus_one 3 Fixtures.w0).1 =
  (random_values_loop Fixtures.grid_plus_one Fixtures.grid 3 Fixtures.w0).1.
Proof.
  apply (X1_mismatch_count_symmetric Fixtures.grid Fixtures.grid_plus_one 3
           Fixtures.w0).
  reflexivity.
Defined.

(** ** Opening groups and listing their variables *)

Lemma sorted_Permutation l : sorted l ≡ₚ l.
Proof. apply merge_sort_Permutation. Qed.



(** ** What the orchestrator does not recover from *)

Section Unrecovered.

Context (fs : string -> option Dataset)
        (common_elements :
           list string -> list string -> list (nat * string * string)).

(** X3: the [try] of [run_through_comparisons] recovers from [KeyError]
    only: any other exception raised while the selected variable is inspected
    or sampled ends the run with that exception, in the world it was raised
    in, and the all-variables stage is never started. *)
Theorem X3_only_key_error_recovered (a b g v : string) (show : bool)
    (w w1 w2 : world) (e : exn) :
  truthy (Some g) = true -> truthy (Some v) = true ->
  (root_stages fs a b ;;; group_listing_stage fs a b g) w = (Ok tt, w1) ->
  sample_values_stage fs a b g v w1 = (Raise e, w2) ->
  (forall key, e <> KeyError key) ->
  run_through_comparisons fs common_elements a b (Some g) (Some v) show w
  = (Raise e, w2).
Proof.
  intros Hg Hv H Hs Hne.
  unfold run_through_comparisons. rewrite Hg, Hv. simpl str_of.
  apply bind_inv in H as [([] & w0 & Hr & Hgl) | (e' & _ & [=])].
  rewrite (bind_ok _ _ _ _ _ Hr).
  apply bind_raise. rewrite (bind_ok _ _ _ _ _ Hgl).
  unfold try_except. rewrite Hs.
  destruct e; try reflexivity. by destruct (Hne key).
Qed.

(** X4: [_print_sample_values] indexes [values[0, :]]: when what the lookup
    of the selected name gives in the first file has fewer than two
    dimensions, the sampling stage raises [IndexError] right after it printed
    its title and loaded the values of the variable; no value is printed and
    no random index is drawn. *)
Theorem X4_low_rank_variable_raises (a b g v : string) (w : world)
    (grp : XrDataset) (arr : DataArray) (blue : string) :
  xr_open_dataset fs a (Some g) w = (Ok grp, w) ->
  xr_getitem grp v w = (Ok arr, w) ->
  (length (da_shape arr) < 2)%nat ->
  w_Fore w !! "LIGHTBLUE_EX" = Some blue ->
  sample_values_stage fs a b g v w =
  (Raise (IndexError "too many indices for array"),
   logged w
     [Print [Str blue;
             Str (nl +:+ "Sample values within specified variable <"
                  +:+ v +:+ ">:")] nl;
      LoadVariable a g v (size_of (da_shape arr))]).
Proof.
  intros Hopen Hget Hrank Hblue.
  apply xr_open_dataset_world in Hopen as [_ Hopen].
  apply xr_getitem_world in Hget as [_ Hget].
  unfold sample_values_stage.
  erewrite bind_ok; [| unfold Fore; by rewrite Hblue].
  unfold print at 1. rewrite bind_emit.
  apply bind_raise. unfold _print_sample_values.
  rewrite (bind_ok _ _ _ _ _ (Hopen _)), (bind_ok _ _ _ _ _ (Hget _)).
  rewrite bind_emit, logged_logged. unfold values_first_row.
  destruct (da_shape arr) as [|d0 [|d1 rest]]; try reflexivity.
  simpl in Hrank. lia.
Qed.

End Unrecovered.

Lemma X3_witness :
  let w1 := ((root_stages MoreFixtures.fs1 "c.nc" "c.nc" ;;;
              group_listing_stage MoreFixtures.fs1 "c.nc" "c.nc" "g")
               Fixtures.w0).2 in
  let w2 := (sample_values_stage MoreFixtures.fs1 "c.nc" "c.nc" "g" "line"
               w1).2 in
  run_through_comparisons MoreFixtures.fs1 Aligner.common_elements
    "c.nc" "c.nc" (Some "g") (Some "line") false Fixtures.w0
  = (Raise (IndexError "too many indices for array"), w2).
Proof.
  intros w1 w2.
  apply (X3_only_key_error_recovered MoreFixtures.fs1
           Aligner.common_elements "c.nc" "c.nc" "g" "line" false
           Fixtures.w0 w1 w2 (IndexError "too many indices for array")
           eq_refl eq_refl).
  - vm_compute. reflexivity.
  - vm_compute. reflexivity.
  - intros key. discriminate.
Defined.

Lemma X4_witness :
  sample_values_stage MoreFixtures.fs1 "c.nc" "c.nc" "g" "line" Fixtures.w0
  = (Raise (IndexError "too many indices for array"),
     logged Fixtures.w0
       [Print [Str (Fixtures.esc "94");
               Str (nl +:+ "Sample values within specified variable <"
                    +:+ "line" +:+ ">:")] nl;
        LoadVariable "c.nc" "g" "line" 4]).
Proof.
  apply (X4_low_rank_variable_raises MoreFixtures.fs1 "c.nc" "c.nc" "g"
           "line" Fixtures.w0
           (group_view MoreFixtures.file_c "g"
              [("line", Fixtures.var_of MoreFixtures.line);
               ("temp", Fixtures.var_of Fixtures.grid)])
           MoreFixtures.line (Fixtures.esc "94")).
  - reflexivity.
  - reflexivity.
  - simpl. lia.
  - vm_compute. reflexivity.
Defined.

(** ** The entry point, from the outside *)

Section EntryPoint.

Context (fs : string -> option Dataset)
        (common_elements :
           list string -> list string -> list (nat * string * string))
        (make_valid_path : string -> result string).

Lemma reaches_all_variables_app tr1 tr2 :
  reaches_all_variables (tr1 ++ tr2) =
  reaches_all_variables tr1 || reaches_all_variables tr2.
Proof. unfold reaches_all_variables. apply existsb_app. Qed.

(** A run of [run_through_comparisons] that returns has printed the title
    of the all-variables stage. *)
Lemma run_through_comparisons_reaches a b g v show w w' :
  run_through_comparisons fs common_elements a b g v show w = (Ok tt, w') ->
  exists tr, w_out w' = w_out w ++ tr /\ reaches_all_variables tr = true.
Proof.
  intros H.
  pose proof (respects_run_through_comparisons fs common_elements a b g v show
                _ _ _ H) as (_ & _ & _ & tr & Hout & _).
  exists tr. split; [exact Hout |].
  unfold run_through_comparisons in H.
  apply bind_inv in H as [([] & w1 & H1 & H) | (e & _ & [=])].
  apply bind_inv in H as [([] & w2 & H2 & H) | (e & _ & [=])].
  assert (Hpre : exists tr1, w_out w2 = w_out w ++ tr1).
  { destruct (respects_root_stages fs a b _ _ _ H1)
      as (_ & _ & _ & t1 & Ho1 & _).
    assert (Hmid : exists t2, w_out w2 = w_out w1 ++ t2).
    { revert H2. generalize w1 (Ok tt : result unit) w2.
      change (forall w1 r w2, _ w1 = (r, w2) -> exists t2, w_out w2 = w_out w1 ++ t2)
        with (forall w1 r w2, (if truthy g
                   then group_listing_stage fs a b (str_of g) ;;;
                        (if truthy v
                         then try_except
                                (sample_values_stage fs a b (str_of g) (str_of v))
                                (key_error_handler (str_of g) (str_of v))
                         else let* grey := Fore "LIGHTBLACK_EX" in
                              print [Str grey;
                                     Str (nl +:+ "No variable selected for comparison. Skipping..")])
                   else let* grey := Fore "LIGHTBLACK_EX" in
                        print [Str grey;
                               Str (nl +:+ "No variable group selected for comparison. Skipping..")])
                  w1 = (r, w2) -> exists t2, w_out w2 = w_out w1 ++ t2).
      intros wa r wb Hab.
      assert (Hr : respects any_event
                (if truthy g
                 then group_listing_stage fs a b (str_of g) ;;;
                      (if truthy v
                       then try_except
                              (sample_values_stage fs a b (str_of g) (str_of v))
                              (key_error_handler (str_of g) (str_of v))
                       else let* grey := Fore "LIGHTBLACK_EX" in
                            print [Str grey;
                                   Str (nl +:+ "No variable selected for comparison. Skipping..")])
                 else let* grey := Fore "LIGHTBLACK_EX" in
                      print [Str grey;
                             Str (nl +:+ "No variable group selected for comparison. Skipping..")])).
      { respects_auto.
        - eapply respects_mono; [| apply respects_group_listing_stage]; done.
        - apply respects_try_except; [apply respects_sample_values_stage |].
          intros e k. apply respects_key_error_handler. }
      destruct (Hr _ _ _ Hab) as (_ & _ & _ & t2 & Ho2 & _). eauto. }
    destruct Hmid as [t2 Ho2]. exists (t1 ++ t2).
    by rewrite Ho2, Ho1, app_assoc. }
  destruct Hpre as [tr1 Hpre].
  unfold all_variables_stage in H.
  apply bind_inv in H as [(blue & w3 & Hb & H) | (e & _ & [=])].
  assert (w3 = w2) as ->.
  { unfold Fore in Hb. destruct (w_Fore w2 !! "LIGHTBLUE_EX"); congruence. }
  unfold print in H. rewrite bind_emit in H.
  destruct (respects_compare_two_nc_files fs common_elements a b show _ _ _ H)
    as (_ & _ & _ & tr3 & Ho3 & _).
  simpl in Ho3. rewrite Hpre, <- !app_assoc in Ho3. rewrite Hout in Ho3.
  apply app_inv_head in Ho3. subst tr.
  assert (Ht : reaches_all_variables
                 [Print [Str blue; Str (nl +:+ "All variables:")] nl] = true)
    by reflexivity.
  rewrite !reaches_all_variables_app, Ht.
  destruct (reaches_all_variables tr1), (reaches_all_variables tr3);
    reflexivity.
Qed.

(** X5: [compare] validates both paths before it prints or changes
    anything: when [make_valid_path] raises for either file, [compare] raises
    the same exception and leaves the world as it was, the colour namespaces
    included, [no_color] or not. *)
Theorem X5_compare_invalid_path (a b : string) (g v : option string)
    (no_color show : bool) (w : world) :
  (forall e,
     make_valid_path a = Raise e ->
     compare fs common_elements make_valid_path a b g v no_color show w
     = (Raise e, w)) /\
  (forall nc_a e,
     make_valid_path a = Ok nc_a -> make_valid_path b = Raise e ->
     compare fs common_elements make_valid_path a b g v no_color show w
     = (Raise e, w)).
Proof.
  split.
  - intros e Ha. rewrite compare_unfold. apply bind_raise.
    unfold lift. by rewrite Ha.
  - intros nc_a e Ha Hb. rewrite compare_unfold.
    erewrite bind_ok; [| unfold lift; by rewrite Ha].
    apply bind_raise. unfold lift. by rewrite Hb.
Qed.

(** X6: a run of [compare] that returns has printed, in this order, the two
    validated paths, then only after them whatever the comparison printed,
    the title of the all-variables stage included, and last of all the
    closing "Done." *)
Theorem X6_compare_success_shape (a b : string) (g v : option string)
    (no_color show : bool) (w w' : world) :
  compare fs common_elements make_valid_path a b g v no_color show w
  = (Ok tt, w') ->
  exists nc_a nc_b tr,
    make_valid_path a = Ok nc_a /\ make_valid_path b = Ok nc_b /\
    new_events w w' =
      [Print [Str "File A: "; Str nc_a] nl;
       Print [Str "File B: "; Str nc_b] nl]
      ++ tr ++ [PrintNormal [Str (nl +:+ "Done.")] nl] /\
    reaches_all_variables tr = true.
Proof.
  rewrite compare_unfold. intros H.
  apply bind_inv in H as [(nc_a & w1 & Ha & H) | (e & _ & [=])].
  apply bind_inv in H as [(nc_b & w2 & Hb & H) | (e & _ & [=])].
  unfold lift in Ha, Hb. injection Ha as Ha <-. injection Hb as Hb <-.
  exists nc_a, nc_b.
  unfold print in H. rewrite !bind_emit, logged_logged in H. simpl app in H.
  apply bind_inv in H as [([] & w3 & Hc & H) | (e & _ & [=])].
  apply bind_inv in H as [([] & w4 & Hr & H) | (e & _ & [=])].
  unfold print_normal, emit in H. injection H as <-.
  apply run_through_comparisons_reaches in Hr as (tr & Hout & Hreach).
  assert (Hcol : exists tc, w_out w3 =
                   w_out w ++ [Print [Str "File A: "; Str nc_a] nl;
                               Print [Str "File B: "; Str nc_b] nl] ++ tc /\
                   reaches_all_variables tc = false).
  { destruct no_color.
    - rewrite disable_colors_spec in Hc. injection Hc as <-.
      exists []. split; reflexivity.
    - unfold colorama_init, emit in Hc. injection Hc as <-.
      exists [ColoramaInit true]. split; [| reflexivity].
      simpl. by rewrite <- app_assoc. }
  destruct Hcol as (tc & Hc3 & Hnc).
  exists (tc ++ tr). split; [done |]. split; [done |]. split.
  - unfold new_events. simpl w_out. rewrite Hout, Hc3.
    rewrite <- !app_assoc. rewrite drop_app_length. reflexivity.
  - by rewrite reaches_all_variables_app, Hreach, orb_true_r.
Qed.

End EntryPoint.

Lemma X5_witness :
  compare Fixtures.fs0 Aligner.common_elements Fixtures.valid_path0
    "missing.nc" "b.nc" None None true false Fixtures.w0
  = (Raise (OSError ("No such file or directory: " +:+ "missing.nc")),
     Fixtures.w0).
Proof.
  apply (proj1 (X5_compare_invalid_path Fixtures.fs0 Aligner.common_elements
                  Fixtures.valid_path0 "missing.nc" "b.nc" None None true
                  false Fixtures.w0)).
  reflexivity.
Defined.

Lemma X6_witness :
  exists tr,
    new_events Fixtures.w0
      (compare Fixtures.fs0 Aligner.common_elements Fixtures.valid_path0
         "a.nc" "b.nc" None None false false Fixtures.w0).2 =
    [Print [Str "File A: "; Str "a.nc"] nl;
     Print [Str "File B: "; Str "b.nc"] nl]
    ++ tr ++ [PrintNormal [Str (nl +:+ "Done.")] nl].
Proof.
  destruct (X6_compare_success_shape Fixtures.fs0 Aligner.common_elements
              Fixtures.valid_path0 "a.nc" "b.nc" None None false false
              Fixtures.w0
              (compare Fixtures.fs0 Aligner.common_elements
                 Fixtures.valid_path0 "a.nc" "b.nc" None None false false
                 Fixtures.w0).2)
    as (nc_a & nc_b & tr & Ha & Hb & Hev & _).
  - vm_compute. reflexivity.
  - exists tr. injection Ha as <-. injection Hb as <-. exact Hev.
Defined.

(** ** A file compared with itself *)




(** ** The rows of one variable *)

Lemma var_properties_root ds v var w :
  v <> "" -> getitem (ds_variables ds) v = Ok var ->
  _var_properties ds v None w =
  (Ok (Some var, [Str (v_dtype var)], [Tuple (da_shape (v_data var))],
       str_chunking (v_chunking var)), w).
Proof.
  intros Hv Hget. unfold _var_properties.
  apply String.eqb_neq in Hv. rewrite Hv. simpl negb. cbv iota.
  simpl truthy. cbv iota. unfold bind, lift. rewrite Hget. reflexivity.
Qed.

(** X8: for two named root variables, [_print_var_properties_side_by_side]
    emits the rows "var:" (names cut to 47 characters), "dtype:", "shape:",
    "chunksize:" when [show_chunks] is set and only then, and "sf:", in this
    order, and only the "sf:" row asks for differences to be highlighted.  A
    scale factor that is absent or zero is shown as a blank: a zero scale
    factor cannot be told from a missing one. *)
Theorem X8_variable_rows (v_a v_b : string) (nc_a nc_b : Dataset)
    (va vb : NcVariable) (show : bool) (w : world) :
  v_a <> "" -> v_b <> "" ->
  getitem (ds_variables nc_a) v_a = Ok va ->
  getitem (ds_variables nc_b) v_b = Ok vb ->
  _print_var_properties_side_by_side v_a v_b nc_a nc_b None None show w =
  (Ok tt,
   logged w
     ([SideBySide [Str "var:"] [Str (String.substring 0 47 v_a)]
         [Str (String.substring 0 47 v_b)] None (Some false);
       SideBySide [Str "dtype:"] [Str (v_dtype va)] [Str (v_dtype vb)]
         None (Some false);
       SideBySide [Str "shape:"] [Tuple (da_shape (v_data va))]
         [Tuple (da_shape (v_data vb))] None (Some false)]
      ++ (if show
          then [SideBySide [Str "chunksize:"] (str_chunking (v_chunking va))
                  (str_chunking (v_chunking vb)) None (Some false)]
          else [])
      ++ [SideBySide [Str "sf:"] (scale_factor_text (Some va))
            (scale_factor_text (Some vb)) None (Some true)])) /\
  (v_scale_factor va = None \/
   (exists s, v_scale_factor va = Some (S754_zero s)) ->
   scale_factor_text (Some va) = [Str " "]) /\
  (forall x, v_scale_factor va = Some x -> float_truthy x = true ->
             scale_factor_text (Some va) = [Flt x]).
Proof.
  intros Ha Hb Hga Hgb. split; [| split].
  - unfold _print_var_properties_side_by_side, side_by_side.
    rewrite bind_emit.
    rewrite (bind_ok _ _ _ _ _ (var_properties_root nc_a v_a va _ Ha Hga)).
    rewrite (bind_ok _ _ _ _ _ (var_properties_root nc_b v_b vb _ Hb Hgb)).
    rewrite !bind_emit.
    destruct show.
    + rewrite bind_emit, emit_logged, !logged_logged. reflexivity.
    + rewrite bind_ret, emit_logged, !logged_logged. reflexivity.
  - unfold scale_factor_text. intros [-> | [s ->]]; reflexivity.
  - unfold scale_factor_text. intros x -> ->. reflexivity.
Qed.

Lemma X8_witness :
  (_print_var_properties_side_by_side "zero" "half" MoreFixtures.file_c
     MoreFixtures.file_c None None false Fixtures.w0).1 = Ok tt /\
  scale_factor_text (Some (MoreFixtures.scaled (Some (S754_zero false))))
  = [Str " "].
Proof.
  destruct (X8_variable_rows "zero" "half" MoreFixtures.file_c
              MoreFixtures.file_c
              (MoreFixtures.scaled (Some (S754_zero false)))
              (MoreFixtures.scaled
                 (Some (S754_finite false 4503599627370496 (-53))))
              false Fixtures.w0) as (H & Hblank & _).
  - discriminate.
  - discriminate.
  - reflexivity.
  - reflexivity.
  - split; [by rewrite H |]. apply Hblank. right. by exists false.
Defined.

(** ** The calls to the aligner *)

Section AlignerCalls.

Context (fs : string -> option Dataset)
        (common_elements :
           list string -> list string -> list (nat * string * string)).

Lemma aligner_calls_app tr1 tr2 :
  aligner_calls (tr1 ++ tr2) = aligner_calls tr1 ++ aligner_calls tr2.
Proof. unfold aligner_calls. apply omap_app. Qed.

Lemma aligner_calls_rows tr :
  Forall (fun e => side_by_side_event e = true) tr -> aligner_calls tr = [].
Proof.
  induction 1 as [|e tr He _ IH]; [done |].
  destruct e; try discriminate. exact IH.
Qed.

Lemma respects_rows_of_variable v_a v_b nc_a nc_b g_a g_b show :
  respects side_by_side_event
    (_print_var_properties_side_by_side v_a v_b nc_a nc_b g_a g_b show).
Proof.
  unfold _print_var_properties_side_by_side, side_by_side.
  respects_auto; apply respects_var_properties.
Qed.

(** The names of the variables of a group, as the loop over the groups
    computes them. *)
Lemma sorted_names_value (ds : Dataset) g w :
  exists r,
    (if negb (String.eqb g "") then
       let* grp := lift (getitem (ds_groups ds) g) in ret (sorted (keys grp))
     else ret []) w = (r, w) /\
    forall x, r = Ok x -> x = group_variable_names ds g.
Proof.
  unfold group_variable_names. destruct (String.eqb g ""); simpl.
  - eexists. split; [reflexivity |]. by intros x [= <-].
  - unfold bind, lift, ret. destruct (getitem (ds_groups ds) g) as [grp|e].
    + eexists. split; [reflexivity |]. by intros x [= <-].
    + eexists. split; [reflexivity |]. intros x [=].
Qed.

Lemma group_variable_names_sorted ds g :
  Sorted String.le (group_variable_names ds g).
Proof.
  unfold group_variable_names. destruct (String.eqb g ""); [constructor |].
  destruct (getitem (ds_groups ds) g); [apply sorted_Sorted | constructor].
Qed.

Lemma group_calls_sorted nc_a nc_b rows :
  Forall (fun c => Sorted String.le c.1 /\ Sorted String.le c.2)
    (group_calls nc_a nc_b rows).
Proof.
  unfold group_calls. apply Forall_fmap, Forall_forall.
  intros [[i g_a] g_b] _. split; apply group_variable_names_sorted.
Qed.

Lemma w_out_logged w tr : w_out (logged w tr) = w_out w ++ tr.
Proof. reflexivity. Qed.

(** A loop whose turns each make one call to the aligner, unless they
    raise before it, makes the calls of the turns it gets through. *)
Lemma for_loop_calls {A} (f : A -> list string * list string)
    (body : A -> unit -> M unit) (xs : list A) :
  (forall x w r w',
     body x tt w = (r, w') ->
     exists tr,
       w_out w' = w_out w ++ tr /\
       ((aligner_calls tr = [] /\ r <> Ok tt) \/ aligner_calls tr = [f x])) ->
  forall w r w',
    for_loop xs body tt w = (r, w') ->
    exists tr,
      w_out w' = w_out w ++ tr /\
      aligner_calls tr `prefix_of` map f xs /\
      (r = Ok tt -> aligner_calls tr = map f xs).
Proof.
  intros Hbody. induction xs as [|x xs IH]; intros w r w' H.
  - injection H as <- <-. exists []. rewrite app_nil_r. by repeat split.
  - change (for_loop (x :: xs) body tt)
      with (bind (body x tt) (fun s => for_loop xs body s)) in H.
    apply bind_inv in H as [([] & w1 & Hx & H) | (e & Hx & ->)].
    + apply Hbody in Hx as (tr1 & Hout1 & [[_ Hne] | Hcall]); [done |].
      apply IH in H as (tr2 & Hout2 & Hpre2 & Hall2).
      exists (tr1 ++ tr2). split; [by rewrite Hout2, Hout1, app_assoc |].
      rewrite aligner_calls_app, Hcall. split.
      * by apply prefix_cons.
      * intros Hr. by rewrite (Hall2 Hr).
    + apply Hbody in Hx as (tr1 & Hout1 & [[Hnone _] | Hcall]).
      * exists tr1. split; [exact Hout1 |]. rewrite Hnone.
        split; [apply prefix_nil | discriminate].
      * exists tr1. split; [exact Hout1 |]. rewrite Hcall.
        split; [apply prefix_cons, prefix_nil | discriminate].
Qed.

(** One turn of the loop over the groups of [compare_two_nc_files]: the
    title of the row, the names of the variables of each side, their number,
    one call to the aligner with these names, and the rows of the
    variables. *)
Lemma group_row_calls nc_a nc_b show g_idx g_a g_b w r w' :
  (side_by_side [Str ("group #" +:+ pad2 g_idx)] [Str (strip g_a)]
     [Str (strip g_b)] (Some true) (Some false) ;;;
   let* vars_a_sorted :=
     (if negb (String.eqb g_a "") then
        let* g := lift (getitem (ds_groups nc_a) g_a) in
        ret (sorted (keys g))
      else ret []) in
   let* vars_b_sorted :=
     (if negb (String.eqb g_b "") then
        let* g := lift (getitem (ds_groups nc_b) g_b) in
        ret (sorted (keys g))
      else ret []) in
   side_by_side [Str "num variables in groups:"]
     [Num (Z.of_nat (length vars_a_sorted))]
     [Num (Z.of_nat (length vars_b_sorted))] None None ;;;
   let* vrows :=
     call_common_elements common_elements vars_a_sorted vars_b_sorted in
   for_loop vrows
     (fun '(v_idx, v_a, v_b) _ =>
        _print_var_properties_side_by_side v_a v_b nc_a nc_b
          (Some g_a) (Some g_b) show)
     tt) w = (r, w') ->
  exists tr,
    w_out w' = w_out w ++ tr /\
    ((aligner_calls tr = [] /\ r <> Ok tt) \/
     aligner_calls tr
     = [(group_variable_names nc_a g_a, group_variable_names nc_b g_b)]).
Proof.
  intros H. unfold side_by_side, call_common_elements in H.
  rewrite bind_emit in H.
  apply bind_inv in H as [(xa & wa & Ha & H) | (e & Ha & ->)].
  2:{ destruct (sorted_names_value nc_a g_a
                  (logged w
                     [SideBySide [Str ("group #" +:+ pad2 g_idx)]
                        [Str (strip g_a)] [Str (strip g_b)]
                        (Some true) (Some false)])) as (ra & Hra & _).
      rewrite Hra in Ha. injection Ha as _ <-.
      eexists. split; [apply w_out_logged |]. left. by split. }
  destruct (sorted_names_value nc_a g_a
              (logged w
                 [SideBySide [Str ("group #" +:+ pad2 g_idx)]
                    [Str (strip g_a)] [Str (strip g_b)]
                    (Some true) (Some false)])) as (ra & Hra & Hva).
  rewrite Hra in Ha. injection Ha as -> <-.
  rewrite (Hva _ eq_refl) in H. clear Hva Hra.
  apply bind_inv in H as [(xb & wb & Hb & H) | (e & Hb & ->)].
  2:{ destruct (sorted_names_value nc_b g_b
                  (logged w
                     [SideBySide [Str ("group #" +:+ pad2 g_idx)]
                        [Str (strip g_a)] [Str (strip g_b)]
                        (Some true) (Some false)])) as (rb & Hrb & _).
      rewrite Hrb in Hb. injection Hb as _ <-.
      eexists. split; [apply w_out_logged |]. left. by split. }
  destruct (sorted_names_value nc_b g_b
              (logged w
                 [SideBySide [Str ("group #" +:+ pad2 g_idx)]
                    [Str (strip g_a)] [Str (strip g_b)]
                    (Some true) (Some false)])) as (rb & Hrb & Hvb).
  rewrite Hrb in Hb. injection Hb as -> <-.
  rewrite (Hvb _ eq_refl) in H. clear Hvb Hrb.
  rewrite bind_emit, bind_assoc, bind_emit, bind_ret, !logged_logged in H.
  assert (Hrows : respects side_by_side_event
            (for_loop
               (common_elements (group_variable_names nc_a g_a)
                  (group_variable_names nc_b g_b))
               (fun '(v_idx, v_a, v_b) _ =>
                  _print_var_properties_side_by_side v_a v_b nc_a nc_b
                    (Some g_a) (Some g_b) show) tt)).
  { apply respects_for_loop. intros [[i l] r0] [].
    apply respects_rows_of_variable. }
  apply Hrows in H as (_ & _ & _ & t1 & Hout1 & Ht1).
  rewrite w_out_logged, <- app_assoc in Hout1.
  eexists. split; [exact Hout1 |]. right.
  rewrite aligner_calls_app, (aligner_calls_rows _ Ht1), app_nil_r.
  reflexivity.
Qed.

(** The calls to the aligner in one run of [compare_two_nc_files]: none when
    a file cannot be opened; otherwise the names of the root variables as
    the files hold them, then, unless a row of root variables raised, the
    names of the groups as the files hold them and one call for each row of
    groups the run gets through. *)
Lemma aligner_calls_of_run (a b : string) (show : bool) (w : world) :
  match fs a, fs b with
  | Some dsA, Some dsB =>
      exists rest,
        aligner_calls
          (new_events w
             (compare_two_nc_files fs common_elements a b show w).2)
        = (keys (ds_variables dsA), keys (ds_variables dsB)) :: rest /\
        (rest = [] \/
         exists calls,
           rest = (keys (ds_groups dsA), keys (ds_groups dsB)) :: calls /\
           calls `prefix_of`
             group_calls dsA dsB
               (common_elements (keys (ds_groups dsA))
                  (keys (ds_groups dsB)))) /\
        ((compare_two_nc_files fs common_elements a b show w).1 = Ok tt ->
         rest = (keys (ds_groups dsA), keys (ds_groups dsB))
                :: group_calls dsA dsB
                     (common_elements (keys (ds_groups dsA))
                        (keys (ds_groups dsB))))
  | _, _ =>
      aligner_calls
        (new_events w
           (compare_two_nc_files fs common_elements a b show w).2) = []
  end.
Proof.
  assert (Hnew : forall w' tr, w_out w' = w_out w ++ tr -> new_events w w' = tr)
    by (intros; by apply new_events_app).
  destruct (compare_two_nc_files fs common_elements a b show w)
    as [r w'] eqn:H.
  unfold compare_two_nc_files, side_by_side in H. rewrite bind_emit in H.
  unfold Dataset_open in H. simpl fst. simpl snd.
  destruct (fs a) as [dsA|].
  2:{ unfold bind, raise in H. injection H as <- <-.
      by erewrite Hnew by reflexivity. }
  rewrite bind_ret in H.
  destruct (fs b) as [dsB|].
  2:{ unfold bind, raise in H. injection H as <- <-.
      by erewrite Hnew by reflexivity. }
  rewrite bind_ret, !bind_emit in H.
  unfold call_common_elements at 1 in H.
  rewrite bind_assoc, bind_emit, bind_ret, !logged_logged in H.
  simpl app in H.
  apply bind_inv in H as [([] & w2 & H1 & H2) | (e & H1 & ->)].
  - assert (Hroot : respects side_by_side_event
              (for_loop
                 (common_elements (keys (ds_variables dsA))
                    (keys (ds_variables dsB)))
                 (fun '(v_idx, v_a, v_b) _ =>
                    _print_var_properties_side_by_side v_a v_b dsA dsB
                      None None show) tt)).
    { apply respects_for_loop. intros [[i l] r0] [].
      apply respects_rows_of_variable. }
    apply Hroot in H1 as (_ & _ & _ & t1 & Hout1 & Ht1).
    unfold call_common_elements at 1 in H2.
    rewrite bind_assoc, bind_emit, bind_ret in H2.
    apply (for_loop_calls
             (fun '(_, g_a, g_b) =>
                (group_variable_names dsA g_a, group_variable_names dsB g_b)))
      in H2 as (t3 & Hout3 & Hpre & Hall).
    2:{ intros [[g_idx g_a] g_b] w0 r0 w0'. apply group_row_calls. }
    rewrite w_out_logged, Hout1, w_out_logged, <- !app_assoc in Hout3.
    rewrite (Hnew _ _ Hout3).
    rewrite !aligner_calls_app, (aligner_calls_rows _ Ht1).
    eexists. split; [reflexivity |]. split.
    + right. eexists. split; [reflexivity | exact Hpre].
    + intros Hr. cbn [app]. by rewrite (Hall Hr).
  - assert (Hroot : respects side_by_side_event
              (for_loop
                 (common_elements (keys (ds_variables dsA))
                    (keys (ds_variables dsB)))
                 (fun '(v_idx, v_a, v_b) _ =>
                    _print_var_properties_side_by_side v_a v_b dsA dsB
                      None None show) tt)).
    { apply respects_for_loop. intros [[i l] r0] [].
      apply respects_rows_of_variable. }
    apply Hroot in H1 as (_ & _ & _ & t1 & Hout1 & Ht1).
    rewrite w_out_logged, <- !app_assoc in Hout1.
    rewrite (Hnew _ _ Hout1).
    rewrite !aligner_calls_app, (aligner_calls_rows _ Ht1).
    eexists. split; [reflexivity |]. split; [by left | discriminate].
Qed.

(** X9: of the calls that [compare_two_nc_files] makes to the aligner, the
    first carries the names of the root variables and the second the names
    of the groups, both as the files hold them; then comes one call for each
    row of groups that the aligner returned for the second call, in the order
    of the rows, with the sorted names of the variables of the group of each
    side, and no names for a side without counterpart.  A run that raises
    has made a prefix of these calls, and a run that cannot open one of its
    files none at all. *)
Theorem X9_group_variables_sorted (a b : string) (show : bool) (w : world) :
  (forall dsA dsB,
     fs a = Some dsA -> fs b = Some dsB ->
     exists calls,
       aligner_calls
         (new_events w
            (compare_two_nc_files fs common_elements a b show w).2)
       = (keys (ds_variables dsA), keys (ds_variables dsB)) :: calls /\
       (calls = [] \/
        exists calls',
          calls = (keys (ds_groups dsA), keys (ds_groups dsB)) :: calls' /\
          calls' `prefix_of`
            group_calls dsA dsB
              (common_elements (keys (ds_groups dsA))
                 (keys (ds_groups dsB))) /\
          Forall (fun c => Sorted String.le c.1 /\ Sorted String.le c.2)
            calls') /\
       ((compare_two_nc_files fs common_elements a b show w).1 = Ok tt ->
        calls = (keys (ds_groups dsA), keys (ds_groups dsB))
                :: group_calls dsA dsB
                     (common_elements (keys (ds_groups dsA))
                        (keys (ds_groups dsB))))) /\
  ((fs a = None \/ fs b = None) ->
   aligner_calls
     (new_events w
        (compare_two_nc_files fs common_elements a b show w).2) = []).
Proof.
  pose proof (aligner_calls_of_run a b show w) as H.
  destruct (fs a) as [dsA|] eqn:Ha; [destruct (fs b) as [dsB|] eqn:Hb |].
  - split; [| by intros [|]].
    intros ? ? [= <-] [= <-].
    destruct H as (rest & Hcalls & Hshape & Hall).
    exists rest. split; [exact Hcalls |]. split; [| exact Hall].
    destruct Hshape as [-> | (calls & -> & Hpre)]; [by left | right].
    exists calls. split; [done |]. split; [exact Hpre |].
    destruct Hpre as [k Hk].
    pose proof (group_calls_sorted dsA dsB
                  (common_elements (keys (ds_groups dsA))
                     (keys (ds_groups dsB)))) as Hs.
    rewrite Hk in Hs. by apply Forall_app in Hs as [Hs _].
  - split; [discriminate | done].
  - split; [discriminate | done].
Qed.

End AlignerCalls.

Lemma X9_witness :
  aligner_calls
    (new_events Fixtures.w0
       (compare_two_nc_files Fixtures.fs0 Aligner.common_elements
          "a.nc" "b.nc" false Fixtures.w0).2)
  = [(["b"; "a"], ["a"; "b"]); (["g"], ["g"]); (["hum"; "temp"], ["temp"])].
Proof.
  destruct (proj1 (X9_group_variables_sorted Fixtures.fs0
                     Aligner.common_elements "a.nc" "b.nc" false
                     Fixtures.w0) Fixtures.file_a Fixtures.file_b
              eq_refl eq_refl) as (calls & -> & _ & Hall).
  rewrite Hall; [reflexivity |]. vm_compute. reflexivity.
Defined.

(** ** Runs that complete *)

Lemma succeeds_ret {A} (Q : A -> Prop) (x : A) : Q x -> succeeds Q (ret x).
Proof. intros H w. by exists x, w. Qed.

Lemma succeeds_emit e : succeeds (fun _ => True) (emit e).
Proof. intros w. by eexists tt, _. Qed.

Lemma succeeds_bind {A B} (Q : A -> Prop) (R : B -> Prop)
    (m : M A) (k : A -> M B) :
  succeeds Q m -> (forall x, Q x -> succeeds R (k x)) -> succeeds R (bind m k).
Proof.
  intros Hm Hk w. destruct (Hm w) as (x & w1 & Hx & HQ).
  destruct (Hk x HQ w1) as (y & w2 & Hy & HR).
  exists y, w2. split; [| exact HR]. unfold bind. by rewrite Hx.
Qed.

Lemma succeeds_weaken {A} (Q R : A -> Prop) (m : M A) :
  (forall x, Q x -> R x) -> succeeds Q m -> succeeds R m.
Proof.
  intros HQR Hm w. destruct (Hm w) as (x & w' & Hx & HQ).
  exists x, w'. eauto.
Qed.

Lemma succeeds_for_loop {A} (xs : list A) (body : A -> unit -> M unit) :
  (forall x, x ∈ xs -> succeeds (fun _ => True) (body x tt)) ->
  succeeds (fun _ => True) (for_loop xs body tt).
Proof.
  induction xs as [|x xs IH]; intros Hbody.
  - by apply succeeds_ret.
  - simpl. eapply succeeds_bind.
    + apply Hbody. apply list_elem_of_here.
    + intros [] _. apply IH. intros y Hy. apply Hbody.
      by apply list_elem_of_further.
Qed.

Lemma getitem_elem {V} (d : list (string * V)) (k : string) :
  k ∈ keys d -> exists v, getitem d k = Ok v.
Proof.
  induction d as [|[k' v'] d IH]; intros Hk.
  - by apply elem_of_nil in Hk.
  - simpl. destruct (String.eqb k' k) eqn:E; [by exists v' |].
    apply IH. unfold keys in Hk. simpl in Hk.
    apply elem_of_cons in Hk as [-> | Hk]; [| exact Hk].
    by rewrite String.eqb_refl in E.
Qed.

Lemma sorted_elem (l : list string) (x : string) : x ∈ sorted l -> x ∈ l.
Proof. unfold sorted. by rewrite merge_sort_Permutation. Qed.

Lemma var_properties_succeeds ds v g :
  var_found ds v g -> succeeds (fun _ => True) (_var_properties ds v g).
Proof.
  intros Hv w. unfold _var_properties.
  destruct (String.eqb v "") eqn:E; simpl; [by eexists _, _ |].
  destruct Hv as [-> | Hv]; [by rewrite String.eqb_refl in E |].
  destruct (truthy g).
  - destruct Hv as (grp & var & Hg & Hvar).
    unfold bind, lift, ret. rewrite Hg, Hvar. by eexists _, _.
  - destruct Hv as (var & Hvar).
    unfold bind, lift, ret. rewrite Hvar. by eexists _, _.
Qed.

Lemma rows_of_variable_succeed v_a v_b nc_a nc_b g_a g_b show :
  var_found nc_a v_a g_a -> var_found nc_b v_b g_b ->
  succeeds (fun _ => True)
    (_print_var_properties_side_by_side v_a v_b nc_a nc_b g_a g_b show).
Proof.
  intros Ha Hb. unfold _print_var_properties_side_by_side, side_by_side.
  eapply succeeds_bind; [apply succeeds_emit |]. intros _ _.
  eapply succeeds_bind; [by apply var_properties_succeeds |].
  intros [[[va da] sa] ca] _.
  eapply succeeds_bind; [by apply var_properties_succeeds |].
  intros [[[vb db] sb] cb] _.
  eapply succeeds_bind; [apply succeeds_emit |]. intros _ _.
  eapply succeeds_bind; [apply succeeds_emit |]. intros _ _.
  eapply succeeds_bind; [| intros _ _; apply succeeds_emit].
  destruct show; [apply succeeds_emit | by apply succeeds_ret].
Qed.

(** The names of a group's variables, sorted: each is found in its group. *)
Lemma sorted_names_succeed ds g :
  g = "" \/ g ∈ keys (ds_groups ds) ->
  succeeds (fun xs => forall v, v = "" \/ v ∈ xs -> var_found ds v (Some g))
    (if negb (String.eqb g "") then
       let* grp := lift (getitem (ds_groups ds) g) in ret (sorted (keys grp))
     else ret []).
Proof.
  intros Hg w. destruct (String.eqb g "") eqn:E; simpl.
  - exists [], w. split; [done |]. intros v [-> | Hv]; [by left |].
    by apply elem_of_nil in Hv.
  - destruct Hg as [-> | Hg]; [by rewrite String.eqb_refl in E |].
    destruct (getitem_elem _ _ Hg) as (grp & Hgrp).
    exists (sorted (keys grp)), w. unfold bind, lift, ret. rewrite Hgrp.
    split; [done |]. intros v [-> | Hv]; [by left |]. right.
    unfold truthy. rewrite E. simpl.
    apply sorted_elem, getitem_elem in Hv as (var & Hvar). eauto.
Qed.

Section Completion.

Context (fs : string -> option Dataset)
        (common_elements :
           list string -> list string -> list (nat * string * string)).

(** X10: when both files open and the aligner hands back only names it was
    given (or the empty string where a side has no counterpart),
    [compare_two_nc_files] returns normally: no lookup of a group or of a
    variable fails. *)
Theorem X10_listing_completes (a b : string) (show : bool) (w : world)
    (dsA dsB : Dataset) :
  aligner_contract common_elements ->
  fs a = Some dsA -> fs b = Some dsB ->
  (compare_two_nc_files fs common_elements a b show w).1 = Ok tt.
Proof.
  intros Hce Ha Hb.
  enough (Hs : succeeds (fun _ => True)
                 (compare_two_nc_files fs common_elements a b show)).
  { destruct (Hs w) as ([] & w' & -> & _). reflexivity. }
  unfold compare_two_nc_files, side_by_side, call_common_elements, Dataset_open.
  rewrite Ha, Hb.
  eapply succeeds_bind; [apply succeeds_emit |]. intros _ _.
  eapply succeeds_bind; [by apply (succeeds_ret (fun _ => True)) |].
  intros nc_a _.
  eapply succeeds_bind; [by apply (succeeds_ret (fun _ => True)) |].
  intros nc_b _.
  eapply succeeds_bind; [apply succeeds_emit |]. intros _ _.
  eapply succeeds_bind; [apply succeeds_emit |]. intros _ _.
  eapply succeeds_bind.
  { eapply succeeds_bind; [apply succeeds_emit |]. intros _ _.
    apply (succeeds_ret
             (fun rows => rows = common_elements (keys (ds_variables nc_a))
                                   (keys (ds_variables nc_b)))).
    reflexivity. }
  intros rows ->.
  eapply succeeds_bind.
  { apply succeeds_for_loop. intros [[i l] r] Hrow.
    apply Hce in Hrow as [Hl Hr].
    apply rows_of_variable_succeed.
    - destruct Hl as [-> | Hl]; [by left | right].
      simpl. by apply getitem_elem.
    - destruct Hr as [-> | Hr]; [by left | right].
      simpl. by apply getitem_elem. }
  intros _ _.
  eapply succeeds_bind.
  { eapply succeeds_bind; [apply succeeds_emit |]. intros _ _.
    apply (succeeds_ret
             (fun rows => rows = common_elements (keys (ds_groups nc_a))
                                   (keys (ds_groups nc_b)))).
    reflexivity. }
  intros grows ->.
  apply succeeds_for_loop. intros [[g_idx g_a] g_b] Hrow.
  apply Hce in Hrow as [Hga Hgb].
  eapply succeeds_bind; [apply succeeds_emit |]. intros _ _.
  eapply succeeds_bind; [by apply sorted_names_succeed |]. intros xa Hxa.
  eapply succeeds_bind; [by apply sorted_names_succeed |]. intros xb Hxb.
  eapply succeeds_bind; [apply succeeds_emit |]. intros _ _.
  eapply succeeds_bind.
  { eapply succeeds_bind; [apply succeeds_emit |]. intros _ _.
    apply (succeeds_ret (fun rows => rows = common_elements xa xb)).
    reflexivity. }
  intros vrows ->.
  apply succeeds_for_loop. intros [[i l] r] Hrow.
  apply Hce in Hrow as [Hl Hr].
  apply rows_of_variable_succeed; [by apply Hxa | by apply Hxb].
Qed.

End Completion.

(** The aligner of the concrete runs keeps to the contract. *)
Lemma search_elem x l skipped rest y :
  Aligner.search x l = (skipped, rest) -> y ∈ skipped \/ y ∈ rest -> y ∈ l.
Proof.
  revert skipped rest. induction l as [|z l IH]; intros skipped rest H Hy.
  - injection H as <- <-. destruct Hy as [Hy | Hy]; by apply elem_of_nil in Hy.
  - simpl in H. destruct (String.eqb x z).
    + injection H as <- <-. destruct Hy as [Hy | Hy].
      * by apply elem_of_nil in Hy.
      * by apply list_elem_of_further.
    + destruct (Aligner.search x l) as [sk rs]. injection H as <- <-.
      destruct Hy as [Hy | Hy].
      * apply elem_of_cons in Hy as [-> | Hy]; [apply list_elem_of_here |].
        apply list_elem_of_further. eapply IH; [reflexivity | by left].
      * apply list_elem_of_further. eapply IH; [reflexivity | by right].
Qed.

Lemma align_elem seq_a seq_b rest_b l r :
  (l, r) ∈ Aligner.align seq_a seq_b rest_b ->
  (l = "" \/ l ∈ seq_a) /\ (r = "" \/ r ∈ seq_b \/ r ∈ rest_b).
Proof.
  revert rest_b. induction seq_a as [|x seq_a IH]; intros rest_b H.
  - simpl in H. apply list_elem_of_fmap in H as (y & [= -> ->] & Hy).
    split; [by left | by right; right].
  - simpl in H. destruct (bool_decide (x ∈ seq_b)) eqn:Hx.
    + apply bool_decide_eq_true_1 in Hx.
      destruct (Aligner.search x rest_b) as [sk rs] eqn:Hs.
      apply elem_of_app in H as [H | H].
      * apply list_elem_of_fmap in H as (y & [= -> ->] & Hy).
        split; [by left |]. right; right.
        eapply search_elem; [exact Hs | by left].
      * apply elem_of_cons in H as [[= -> ->] | H].
        { split; [right; apply list_elem_of_here | by right; left]. }
        apply IH in H as [Hl Hr]. split.
        { destruct Hl as [-> | Hl]; [by left |].
          right. by apply list_elem_of_further. }
        destruct Hr as [-> | [Hr | Hr]]; [by left | by right; left |].
        right; right. eapply search_elem; [exact Hs | by right].
    + apply elem_of_cons in H as [[= -> ->] | H].
      { split; [right; apply list_elem_of_here | by left]. }
      apply IH in H as [Hl Hr]. split; [| exact Hr].
      destruct Hl as [-> | Hl]; [by left |].
      right. by apply list_elem_of_further.
Qed.

Lemma Aligner_keeps_contract : aligner_contract Aligner.common_elements.
Proof.
  intros a b i l r H. unfold Aligner.common_elements in H.
  apply elem_of_lookup_imap in H as (j & [l' r'] & [= -> -> ->] & Hj).
  apply list_elem_of_lookup_2 in Hj. apply align_elem in Hj as [Hl Hr].
  split; [exact Hl |]. destruct Hr as [-> | [Hr | Hr]]; auto.
Qed.

Lemma X10_witness :
  (compare_two_nc_files Fixtures.fs0 Aligner.common_elements "a.nc" "b.nc"
     true Fixtures.w0).1 = Ok tt.
Proof.
  apply (X10_listing_completes Fixtures.fs0 Aligner.common_elements
           "a.nc" "b.nc" true Fixtures.w0 Fixtures.file_a Fixtures.file_b).
  - exact Aligner_keeps_contract.
  - reflexivity.
  - reflexivity.
Defined.

(** ** The listings of groups and of dimensions *)

Lemma dims_order_total :
  Total (fun x y : string * Z => String.le x.1 y.1).
Proof. intros x y. apply (total String.le). Qed.

(** X11: [_get_groups] and [_get_dims] return the groups, and the
    dimensions, of the root of the file in the order the file holds them,
    whether [print_list] is set or not; [print_list] only adds one printed
    line, which shows the same entries sorted by name.  A file that does not
    open makes both raise [OSError] with nothing printed. *)
Theorem X11_listings_print_sorted_return_unsorted
    (fs : string -> option Dataset) (path : string) (print_list : bool)
    (w : world) :
  (forall ds,
     fs path = Some ds ->
     exists shown_groups shown_dims,
       _get_groups fs path print_list w =
         (Ok (keys (ds_groups ds)),
          if print_list
          then logged w [PrintNormal [StrList shown_groups] nl]
          else w) /\
       Sorted String.le shown_groups /\
       shown_groups ≡ₚ keys (ds_groups ds) /\
       _get_dims fs path print_list w =
         (Ok (ds_dims ds),
          if print_list
          then logged w
                 [PrintNormal (map (fun kv => Pair kv.1 kv.2) shown_dims) nl]
          else w) /\
       Sorted (fun x y => String.le x.1 y.1) shown_dims /\
       shown_dims ≡ₚ ds_dims ds) /\
  (fs path = None ->
   exists msg,
     _get_groups fs path print_list w = (Raise (OSError msg), w) /\
     _get_dims fs path print_list w = (Raise (OSError msg), w)).
Proof.
  split.
  - intros ds Hds.
    exists (sorted (keys (ds_groups ds))),
      (merge_sort (fun x y => String.le x.1 y.1) (ds_dims ds)).
    split; [| split; [apply sorted_Sorted |
                 split; [apply sorted_Permutation | split; [| split]]]].
    + unfold _get_groups, Dataset_open. rewrite Hds, bind_ret.
      by destruct print_list.
    + unfold _get_dims, xr_open_dataset, Dataset_open.
      rewrite Hds. rewrite bind_assoc, !bind_ret. cbn [xr_dims].
      by destruct print_list.
    + apply Sorted_merge_sort, dims_order_total.
    + apply merge_sort_Permutation.
  - intros Hds. eexists. split.
    + unfold _get_groups, Dataset_open. rewrite Hds. reflexivity.
    + unfold _get_dims, xr_open_dataset, Dataset_open. rewrite Hds.
      reflexivity.
Qed.

Lemma X11_witness :
  (_get_groups Fixtures.fs0 "a.nc" false Fixtures.w0).1
  = Ok (keys (ds_groups Fixtures.file_a)) /\
  (_get_dims Fixtures.fs0 "a.nc" false Fixtures.w0).1
  = Ok (ds_dims Fixtures.file_a) /\
  exists msg,
    _get_groups Fixtures.fs0 "missing.nc" true Fixtures.w0
    = (Raise (OSError msg), Fixtures.w0).
Proof.
  destruct (X11_listings_print_sorted_return_unsorted Fixtures.fs0 "a.nc"
              false Fixtures.w0) as [Hopen _].
  destruct (Hopen Fixtures.file_a) as (sg & sd & Hg & _ & _ & Hd & _);
    [reflexivity |].
  destruct (X11_listings_print_sorted_return_unsorted Fixtures.fs0
              "missing.nc" true Fixtures.w0) as [_ Hmiss].
  destruct Hmiss as (msg & Hm & _); [reflexivity |].
  split; [by rewrite Hg | split; [by rewrite Hd |]].
  by exists msg.
Defined.
